(** * TracePulse: the phase-instrumented HTTP(S) tracer

    A shallow embedding of [tracepulse/tracer.py] and the properties of
    its timing records, response framing, redirect folding, concurrent
    runner, averager and cURL parser, with the URL normalisation and the
    phase bar of its callers ([cli.py], [dashboard/app.py]).

    Conventions of the embedding.
    - Python [float] durations are exact rationals ([Qc]); rounding is
      not modelled.
    - Python [bytes] are [list byte]; Python [str] is [string].  Text is
      encoded and decoded byte for byte ([encode], [decode]), and
      [lower], [strip] and [int] act on ASCII: exact on ASCII text, which
      is all the header syntax examined by the tracer uses.
    - The network, the clock and [urllib.parse.urlparse] are an oracle
      ([World]); nothing is assumed about what it answers.
    - A Python exception is a value of [exn]; code that can raise
      returns an [outcome]. *)

From Stdlib Require Import QArith Qcanon ZArith Strings.Byte Ascii String List.
From stdpp Require Import gmap strings list fin_maps numbers pretty.

Local Open Scope Z_scope.
Local Open Scope list_scope.

(** ** Python byte strings *)

Module Py.

Abbreviation bytes := (list byte).

#[global] Instance byte_eq_dec : EqDecision byte := Byte.byte_eq_dec.

Definition encode (s : string) : bytes := list_byte_of_string s.
Definition decode (b : bytes) : string := string_of_list_byte b.

Definition CR : byte := x0d.
Definition LF : byte := x0a.
Definition CRLF : bytes := [CR; LF].
Definition CRLFCRLF : bytes := [CR; LF; CR; LF].

(** [l.startswith(p)] *)
Fixpoint startswith (p l : bytes) : bool :=
  match p, l with
  | [], _ => true
  | _ :: _, [] => false
  | a :: p', b :: l' => bool_decide (a = b) && startswith p' l'
  end.

(** [l.endswith(s)] *)
Definition endswith (s l : bytes) : bool :=
  bool_decide (length s ≤ length l)%nat
  && bool_decide (drop (length l - length s) l = s).

(** [l.find(sep)]: index of the first occurrence; Python's [-1] is [None]. *)
Fixpoint find (sep l : bytes) : option nat :=
  if startswith sep l then Some 0%nat
  else match l with
       | [] => None
       | _ :: t => S <$> find sep t
       end.

(** [sep in l] *)
Definition contains (sep l : bytes) : bool :=
  match find sep l with Some _ => true | None => false end.

(** [l.lower()] and [l.upper()] on ASCII letters. *)
Definition lower_byte (b : byte) : byte :=
  let n := Byte.to_N b in
  if ((65 <=? n) && (n <=? 90))%N
  then default b (Byte.of_N (n + 32)) else b.

Definition upper_byte (b : byte) : byte :=
  let n := Byte.to_N b in
  if ((97 <=? n) && (n <=? 122))%N
  then default b (Byte.of_N (n - 32)) else b.

Definition lower (l : bytes) : bytes := map lower_byte l.
Definition upper (l : bytes) : bytes := map upper_byte l.

(** Whitespace: [bytes.strip()] removes space and [\t \n \v \f \r];
    [str.strip()] removes these and the separators [\x1c]-[\x1f]. *)
Definition is_space (b : byte) : bool :=
  let n := Byte.to_N b in
  ((n =? 32) || ((9 <=? n) && (n <=? 13)))%N.

Definition is_uspace (b : byte) : bool :=
  let n := Byte.to_N b in
  (is_space b || ((28 <=? n) && (n <=? 31)))%N.

Fixpoint lstrip_with (sp : byte → bool) (l : bytes) : bytes :=
  match l with
  | b :: t => if sp b then lstrip_with sp t else l
  | [] => []
  end.

Definition rstrip_with (sp : byte → bool) (l : bytes) : bytes :=
  rev (lstrip_with sp (rev l)).

Definition strip_with (sp : byte → bool) (l : bytes) : bytes :=
  rstrip_with sp (lstrip_with sp l).

Definition strip : bytes → bytes := strip_with is_space.
Definition str_strip : bytes → bytes := strip_with is_uspace.

(** Helper of [split_crlf]: push a byte on the first part. *)
Definition cons_hd (b : byte) (ps : list bytes) : list bytes :=
  match ps with
  | p :: ps' => (b :: p) :: ps'
  | [] => [[b]]
  end.

(** [l.split(b"\r\n")]: parts between the non-overlapping occurrences of
    CR LF, scanned from the left. *)
Fixpoint split_crlf (l : bytes) : list bytes :=
  match l with
  | [] => [[]]
  | b :: t =>
      match t with
      | c :: t' =>
          if bool_decide (b = CR) && bool_decide (c = LF)
          then [] :: split_crlf t'
          else cons_hd b (split_crlf t)
      | [] => cons_hd b (split_crlf t)
      end
  end.

(** [l.split(sep, 1)] when [sep] occurs: the text before and after the
    first occurrence. [None] when [sep] does not occur (Python then
    returns the one-element list [[l]]). *)
Definition split1 (sep l : bytes) : option (bytes * bytes) :=
  i ← find sep l; Some (take i l, drop (i + length sep) l).

(** Value of a digit in [int(_, base)]: [0-9], [a-z], [A-Z]. *)
Definition digit_val (base : Z) (b : byte) : option Z :=
  let n := Z.of_N (Byte.to_N b) in
  let v := if (48 <=? n) && (n <=? 57) then n - 48
           else if (97 <=? n) && (n <=? 122) then n - 87
           else if (65 <=? n) && (n <=? 90) then n - 55
           else 36 in
  if v <? base then Some v else None.

Definition UNDERSCORE : byte := x5f.

(** The digits after the first one; a single underscore may separate
    two digits. *)
Fixpoint int_digits (base acc : Z) (l : bytes) : option Z :=
  match l with
  | [] => Some acc
  | b :: t =>
      if bool_decide (b = UNDERSCORE) then
        match t with
        | d :: t' => v ← digit_val base d; int_digits base (acc * base + v) t'
        | [] => None
        end
      else v ← digit_val base b; int_digits base (acc * base + v) t
  end.

Definition int_unsigned (base : Z) (l : bytes) : option Z :=
  match l with
  | d :: t => v ← digit_val base d; int_digits base v t
  | [] => None
  end.

(** After the sign, base 16 accepts a [0x] or [0X] prefix, itself
    optionally followed by one underscore. *)
Definition int_prefixed (base : Z) (l : bytes) : option Z :=
  match l with
  | z :: x :: t =>
      if bool_decide (base = 16) && bool_decide (z = x30)
         && (bool_decide (x = x78) || bool_decide (x = x58))
      then match t with
           | u :: t' => if bool_decide (u = UNDERSCORE)
                        then int_unsigned base t' else int_unsigned base t
           | [] => None
           end
      else int_unsigned base l
  | _ => int_unsigned base l
  end.

(** [int(l, base)] after the surrounding whitespace [sp] is removed;
    [None] is [ValueError]. *)
Definition int_with (sp : byte → bool) (base : Z) (l : bytes) : option Z :=
  match strip_with sp l with
  | s :: t =>
      if bool_decide (s = x2d) then Z.opp <$> int_prefixed base t
      else if bool_decide (s = x2b) then int_prefixed base t
      else int_prefixed base (s :: t)
  | [] => None
  end.

Definition int : Z → bytes → option Z := int_with is_space.
Definition str_int : Z → bytes → option Z := int_with is_uspace.

Definition str_upper (s : string) : string := decode (upper (encode s)).
Definition str_lower (s : string) : string := decode (lower (encode s)).
Definition str_startswith (p s : string) : bool := startswith (encode p) (encode s).
Definition crlf : string := decode CRLF.

End Py.

Import Py.

(** ** The timing record *)

(** [TimingBreakdown]: the dataclass of the tracer, field for field. *)
Record TimingBreakdown := mkTB {
  dns_ms : Qc;
  tcp_connect_ms : Qc;
  tls_handshake_ms : Qc;
  server_processing_ms : Qc;
  content_transfer_ms : Qc;
  total_ms : Qc;
  url : string;
  method : string;
  status_code : Z;
  response_size : Z;
  headers_sent : list (string * string);
  headers_received : gmap string string;
  ip_address : string;
  tls_version : string;
  response_body : string;
  geo_info : string;
  error : option string
}.

(** [TimingBreakdown()]: every field at its default. *)
Definition TimingBreakdown_default : TimingBreakdown :=
  mkTB 0 0 0 0 0 0 "" "GET" 0 0 [] ∅ "" "" "" "" None.

(** [TimingBreakdown(url=url, method=method)] *)
Definition TimingBreakdown_init (url method : string) : TimingBreakdown :=
  mkTB 0 0 0 0 0 0 url method 0 0 [] ∅ "" "" "" "" None.

(** Attribute assignments [t.field = v]. *)
Definition set_dns_ms (v : Qc) (t : TimingBreakdown) : TimingBreakdown :=
  let 'mkTB _ b c d e f g h i j k l m n o p q := t in
  mkTB v b c d e f g h i j k l m n o p q.
Definition set_tcp_connect_ms (v : Qc) (t : TimingBreakdown) : TimingBreakdown :=
  let 'mkTB a _ c d e f g h i j k l m n o p q := t in
  mkTB a v c d e f g h i j k l m n o p q.
Definition set_tls_handshake_ms (v : Qc) (t : TimingBreakdown) : TimingBreakdown :=
  let 'mkTB a b _ d e f g h i j k l m n o p q := t in
  mkTB a b v d e f g h i j k l m n o p q.
Definition set_server_processing_ms (v : Qc) (t : TimingBreakdown) : TimingBreakdown :=
  let 'mkTB a b c _ e f g h i j k l m n o p q := t in
  mkTB a b c v e f g h i j k l m n o p q.
Definition set_content_transfer_ms (v : Qc) (t : TimingBreakdown) : TimingBreakdown :=
  let 'mkTB a b c d _ f g h i j k l m n o p q := t in
  mkTB a b c d v f g h i j k l m n o p q.
Definition set_total_ms (v : Qc) (t : TimingBreakdown) : TimingBreakdown :=
  let 'mkTB a b c d e _ g h i j k l m n o p q := t in
  mkTB a b c d e v g h i j k l m n o p q.
Definition set_url (v : string) (t : TimingBreakdown) : TimingBreakdown :=
  let 'mkTB a b c d e f _ h i j k l m n o p q := t in
  mkTB a b c d e f v h i j k l m n o p q.
Definition set_status_code (v : Z) (t : TimingBreakdown) : TimingBreakdown :=
  let 'mkTB a b c d e f g h _ j k l m n o p q := t in
  mkTB a b c d e f g h v j k l m n o p q.
Definition set_response_size (v : Z) (t : TimingBreakdown) : TimingBreakdown :=
  let 'mkTB a b c d e f g h i _ k l m n o p q := t in
  mkTB a b c d e f g h i v k l m n o p q.
Definition set_headers_sent (v : list (string * string)) (t : TimingBreakdown)
  : TimingBreakdown :=
  let 'mkTB a b c d e f g h i j _ l m n o p q := t in
  mkTB a b c d e f g h i j v l m n o p q.
Definition set_headers_received (v : gmap string string) (t : TimingBreakdown)
  : TimingBreakdown :=
  let 'mkTB a b c d e f g h i j k _ m n o p q := t in
  mkTB a b c d e f g h i j k v m n o p q.
Definition set_ip_address (v : string) (t : TimingBreakdown) : TimingBreakdown :=
  let 'mkTB a b c d e f g h i j k l _ n o p q := t in
  mkTB a b c d e f g h i j k l v n o p q.
Definition set_tls_version (v : string) (t : TimingBreakdown) : TimingBreakdown :=
  let 'mkTB a b c d e f g h i j k l m _ o p q := t in
  mkTB a b c d e f g h i j k l m v o p q.
Definition set_response_body (v : string) (t : TimingBreakdown) : TimingBreakdown :=
  let 'mkTB a b c d e f g h i j k l m n _ p q := t in
  mkTB a b c d e f g h i j k l m n v p q.
Definition set_error (v : option string) (t : TimingBreakdown) : TimingBreakdown :=
  let 'mkTB a b c d e f g h i j k l m n o p _ := t in
  mkTB a b c d e f g h i j k l m n o p v.

(** The sum the code writes twice: in [overhead_ms] and for [total_ms]. *)
Definition phase_sum (t : TimingBreakdown) : Qc :=
  (dns_ms t + tcp_connect_ms t + tls_handshake_ms t
   + server_processing_ms t + content_transfer_ms t)%Qc.

(** Python's [max(a, b)]: [b] when [b > a], else [a]. *)
Definition py_max (a b : Qc) : Qc := if Qclt_le_dec a b then b else a.

(** The property [overhead_ms]. *)
Definition overhead_ms (t : TimingBreakdown) : Qc :=
  let accounted := phase_sum t in
  py_max 0 (total_ms t - accounted).

(** ** Exceptions and the world outside the tracer *)

(** The exception classes that [trace_request] tells apart, each with
    the text [str(e)]. [OtherException] is any other [Exception]. *)
Inductive exn :=
| gaierror (msg : string)
| ConnectionRefusedError (msg : string)
| socket_timeout (msg : string)
| SSLError (msg : string)
| ValueError (msg : string)
| OtherException (msg : string).

Definition exn_str (e : exn) : string :=
  match e with
  | gaierror m | ConnectionRefusedError m | socket_timeout m
  | SSLError m | ValueError m | OtherException m => m
  end.

(** A call either returns a value or raises. *)
Inductive outcome (A : Type) :=
| Returns (a : A)
| Raises (e : exn).
Arguments Returns {A} a.
Arguments Raises {A} e.

(** What [urlparse(url)] gives; [port] is a property that may raise
    [ValueError] when read. *)
Record ParseResult := {
  scheme : string;
  hostname : option string;
  port : outcome (option Z);
  path : string;
  query : string
}.

(** One entry of [socket.getaddrinfo]. *)
Record addrinfo := {
  ai_family : Z;
  ai_socktype : Z;
  ai_proto : Z;
  ai_sockaddr : string * Z
}.

(** What the network does during one probe: the answer of each blocking
    call, in the order the tracer makes them. After [x_recv_rest] is
    used up nothing more arrives and [recv] times out. *)
Record Exchange := {
  x_getaddrinfo : outcome (list addrinfo);
  x_connect : outcome unit;
  x_wrap_socket : outcome (option string);
  x_sendall : outcome unit;
  x_recv_first : outcome bytes;
  x_recv_rest : list (outcome bytes)
}.

(** The oracle. [perf_counter n] is the [n]-th reading of the clock;
    [exchange n host port https request] is the network's behaviour for
    the probe that starts at reading [n]; [float_str] is [str] of a
    float. *)
Record World := {
  urlparse : string → outcome ParseResult;
  perf_counter : nat → Qc;
  exchange : nat → option string → Z → bool → bytes → Exchange;
  float_str : Qc → string
}.

(** ** The probe monad: clock position and the record being filled *)

Record pstate := mkPS {
  tick : nat;
  timing : TimingBreakdown
}.

Definition M (A : Type) : Type := pstate → outcome A * pstate.

Definition ret {A} (a : A) : M A := fun s => (Returns a, s).

Definition bind {A B} (c : M A) (k : A → M B) : M B :=
  fun s => match c s with
           | (Returns a, s') => k a s'
           | (Raises e, s') => (Raises e, s')
           end.

Definition lift {A} (o : outcome A) : M A := fun s => (o, s).

Definition now (w : World) : M Qc :=
  fun s => (Returns (perf_counter w (tick s)), mkPS (S (tick s)) (timing s)).

Definition modify (f : TimingBreakdown → TimingBreakdown) : M unit :=
  fun s => (Returns tt, mkPS (tick s) (f (timing s))).

Definition get_timing : M TimingBreakdown :=
  fun s => (Returns (timing s), s).

Declare Scope probe_scope.
Delimit Scope probe_scope with probe.
Notation "'let*' x ':=' c 'in' k" := (bind c (fun x => k))
  (at level 10, x name, c at level 100, k at level 200) : probe_scope.

(** ** Response framing (the transfer loop) *)

Definition CONTENT_LENGTH : bytes := encode "content-length:".
Definition TE_CHUNKED : bytes := encode "transfer-encoding: chunked".
Definition LAST_CHUNK : bytes := encode "0" ++ CRLFCRLF.
Definition COLON : bytes := encode ":".

Definition invalid_literal (base : Z) (l : bytes) : exn :=
  ValueError ("invalid literal for int() with base " +:+ pretty base
              +:+ ": '" +:+ decode l +:+ "'").

(** How the [for line in ...] of the loop ends. *)
Inductive for_exit := ForBreak | ForElse.

(** The [for] over the header lines: it breaks at the first
    [content-length:] line whose value the body has reached. *)
Fixpoint scan_content_length (body_so_far : Z) (lines : list bytes)
  : outcome for_exit :=
  match lines with
  | [] => Returns ForElse
  | line :: rest =>
      if startswith CONTENT_LENGTH line then
        match split1 COLON line with
        | Some (_, v) =>
            match str_int 10 (str_strip v) with
            | Some expected =>
                if expected <=? body_so_far then Returns ForBreak
                else scan_content_length body_so_far rest
            | None => Raises (invalid_literal 10 (str_strip v))
            end
        | None => Raises (OtherException "list index out of range")
        end
      else scan_content_length body_so_far rest
  end.

(** How one pass through the [while True] body ends, after the bytes of
    a read were appended. *)
Inductive pass_exit := Break | Continue.

Definition after_read (response_data : bytes) : outcome pass_exit :=
  match find CRLFCRLF response_data with
  | Some header_end_pos =>
      let header_text := lower (take header_end_pos response_data) in
      let body_so_far :=
        Z.of_nat (length response_data) - Z.of_nat header_end_pos - 4 in
      match scan_content_length body_so_far (split_crlf header_text) with
      | Returns ForBreak => Returns Break
      | Returns ForElse =>
          if contains TE_CHUNKED (lower (take header_end_pos response_data))
          then if endswith LAST_CHUNK response_data
               then Returns Break else Returns Continue
          else Returns Continue
      | Raises e => Raises e
      end
  | None => Returns Continue
  end.

(** The [while True] loop. [reads] are the answers the next calls of
    [sock.recv(4096)] will get. The result is the buffer at the exit (or
    the exception that leaves the loop) and the number of calls of
    [recv] the loop made. *)
Fixpoint read_loop (reads : list (outcome bytes)) (response_data : bytes)
  : outcome bytes * nat :=
  match reads with
  | [] => (Returns response_data, 1%nat)
  | Raises (socket_timeout _) :: _ => (Returns response_data, 1%nat)
  | Raises e :: _ => (Raises e, 1%nat)
  | Returns [] :: _ => (Returns response_data, 1%nat)
  | Returns chunk :: reads' =>
      let response_data := response_data ++ chunk in
      match after_read response_data with
      | Returns Break => (Returns response_data, 1%nat)
      | Returns Continue =>
          let '(r, n) := read_loop reads' response_data in (r, S n)
      | Raises (socket_timeout m) => (Returns response_data, 1%nat)
      | Raises e => (Raises e, 1%nat)
      end
  end.

(** ** Response parsing *)

(** The [while i < len(parts)] of [_parse_chunked_size], on the parts
    from index [i] on: a size line that parses skips the next part
    ([i += 2]); one that does not is counted by its length. *)
Fixpoint chunked_total (parts : list bytes) (total : Z) : Z :=
  match parts with
  | [] => total
  | part :: rest =>
      match strip part with
      | [] => chunked_total rest total
      | line =>
          match int 16 line with
          | Some chunk_size =>
              if chunk_size =? 0 then total
              else match rest with
                   | [] => total + chunk_size
                   | _ :: rest' => chunked_total rest' (total + chunk_size)
                   end
          | None => chunked_total rest (total + Z.of_nat (length part))
          end
      end
  end.

(** [_parse_chunked_size(data)]. The outer [except Exception] of the
    source is never taken: [split], [strip] and [len] do not raise and
    the [ValueError] of [int] is handled inside. *)
Definition _parse_chunked_size (data : bytes) : Z :=
  chunked_total (split_crlf data) 0.

Definition SP : bytes := encode " ".
Definition COLON_SP : bytes := encode ": ".

(** [status_parts[1]] of [lines[0].split(" ", 2)] when there are at
    least two parts. *)
Definition status_field (line0 : bytes) : option bytes :=
  match split1 SP line0 with
  | Some (_, rest) =>
      Some (match split1 SP rest with Some (f, _) => f | None => rest end)
  | None => None
  end.

(** The status code to assign, if any; [Raises] when [int] does. *)
Definition parse_status (lines : list bytes) : outcome (option Z) :=
  match lines with
  | line0 :: _ =>
      match status_field line0 with
      | Some f =>
          match str_int 10 f with
          | Some c => Returns (Some c)
          | None => Raises (invalid_literal 10 f)
          end
      | None => Returns None
      end
  | [] => Returns None
  end.

(** One step of the loop that fills [resp_headers]. *)
Definition add_header (h : gmap string string) (line : bytes)
  : gmap string string :=
  match split1 COLON_SP line with
  | Some (k, v) => <[decode (lower k) := decode v]> h
  | None => h
  end.

Definition is_chunked (resp_headers : gmap string string) : bool :=
  bool_decide (str_lower (default "" (resp_headers !! "transfer-encoding"))
               = "chunked").

(** The block under [# Parse response], with its [except Exception:
    pass]: an exception leaves the record as filled so far. *)
Definition parse_response (response_data : bytes) (t : TimingBreakdown)
  : TimingBreakdown :=
  match find CRLFCRLF response_data with
  | None => t
  | Some header_end =>
      let header_section := take header_end response_data in
      let body_section := drop (header_end + 4) response_data in
      let t := set_response_size (Z.of_nat (length body_section)) t in
      let lines := split_crlf header_section in
      match parse_status lines with
      | Raises _ => t
      | Returns sc =>
          let t := match sc with Some c => set_status_code c t | None => t end in
          let resp_headers := fold_left add_header (tail lines) ∅ in
          let t := set_headers_received resp_headers t in
          let t := if is_chunked resp_headers
                   then set_response_size (_parse_chunked_size body_section) t
                   else t in
          set_response_body (decode (take 4000 body_section)) t
      end
  end.

(** ** One probe *)

(** [d[k] = v] and [d.update(e)] on a dict kept in insertion order. *)
Fixpoint dict_set (k v : string) (d : list (string * string))
  : list (string * string) :=
  match d with
  | [] => [(k, v)]
  | (k', v') :: r =>
      if bool_decide (k = k') then (k, v) :: r else (k', v') :: dict_set k v r
  end.

Definition dict_update (d e : list (string * string)) : list (string * string) :=
  fold_left (fun d kv => dict_set kv.1 kv.2 d) e d.

(** [f"{host}"]: [None] prints as [None]. *)
Definition fmt_host (host : option string) : string := default "None" host.

(** [if x:] for an optional dict and an optional string. *)
Definition truthy_dict (h : option (list (string * string))) : bool :=
  match h with Some (_ :: _) => true | _ => false end.

Definition truthy_str (s : option string) : bool :=
  match s with Some (String _ _) => true | _ => false end.

(** The bytes handed to [sock.sendall]. *)
Definition raw_request (method path : string) (host : option string)
  (headers : option (list (string * string))) (body : option string) : bytes :=
  let request_headers :=
    [("Host", fmt_host host); ("User-Agent", "TracePulse/1.0"); ("Accept", "*/*")] in
  let request_headers :=
    if truthy_dict headers then dict_update request_headers (default [] headers)
    else request_headers in
  let request_line := str_upper method +:+ " " +:+ path +:+ " HTTP/1.1" +:+ crlf in
  let header_lines :=
    fold_left (fun acc kv => acc +:+ kv.1 +:+ ": " +:+ kv.2 +:+ crlf)
              request_headers "" in
  let header_lines :=
    if truthy_str body
    then header_lines +:+ "Content-Length: "
         +:+ pretty (length (encode (default "" body))) +:+ crlf
    else header_lines in
  let raw := request_line +:+ header_lines +:+ crlf in
  encode (if truthy_str body then raw +:+ default "" body else raw).

Definition REDIRECT_CODES : list Z := [301; 302; 303; 307; 308].

Definition is_redirect (code : Z) : bool := bool_decide (code ∈ REDIRECT_CODES).

(** Lines 252-253: a location that starts with [/] is prefixed with the
    scheme and host of the request; any other location is used as is. *)
Definition redirect_target (scheme : string) (host : option string)
  (location : string) : string :=
  if str_startswith "/" location
  then scheme +:+ "://" +:+ fmt_host host +:+ location
  else location.

(** Lines 258-262: the fold of the first hop into the follow-up's record. *)
Definition fold_redirect (url : string) (timing redirect_timing : TimingBreakdown)
  : TimingBreakdown :=
  let r := redirect_timing in
  let r := set_dns_ms (dns_ms r + dns_ms timing) r in
  let r := set_tcp_connect_ms (tcp_connect_ms r + tcp_connect_ms timing) r in
  let r := set_tls_handshake_ms (tls_handshake_ms r + tls_handshake_ms timing) r in
  let r := set_total_ms (total_ms r + total_ms timing) r in
  set_url url r.

(** The [except] clauses: the text stored in [timing.error]. *)
Definition handler (w : World) (host : option string) (port : Z) (timeout : Qc)
  (e : exn) : string :=
  match e with
  | gaierror m => "DNS resolution failed: " +:+ m
  | ConnectionRefusedError _ =>
      "Connection refused by " +:+ fmt_host host +:+ ":" +:+ pretty port
  | socket_timeout _ =>
      "Connection timed out after " +:+ float_str w timeout +:+ "s"
  | SSLError m => "TLS error: " +:+ m
  | ValueError m | OtherException m => "Request failed: " +:+ m
  end.

(** A call of [trace_request] made from inside a probe: it starts at the
    caller's clock position and leaves the clock where it stopped. *)
Definition call (f : nat → outcome TimingBreakdown * nat) : M TimingBreakdown :=
  fun s => let '(r, n) := f (tick s) in (r, mkPS n (timing s)).

(** [(t_end - t_start) * 1000] *)
Definition ms (t_start t_end : Qc) : Qc :=
  ((t_end - t_start) * Q2Qc (inject_Z 1000))%Qc.

Local Open Scope probe_scope.

(** Phase 3, only for [https]. *)
Definition tls_phase (w : World) (x : Exchange) (is_https : bool) : M unit :=
  if is_https then
    let* t_tls_start := now w in
    let* version := lift (x_wrap_socket x) in
    let* t_tls_end := now w in
    let* _ := modify (set_tls_handshake_ms (ms t_tls_start t_tls_end)) in
    modify (set_tls_version (default "" version))
  else ret tt.

(** The [try] up to and including the assignment of [total_ms]. The
    result is [Some timing] for the [return timing] after an empty
    [addr_info], and [None] when control reaches the redirect block. *)
Definition measure (w : World) (x : Exchange) (host : option string)
  (is_https : bool) : M (option TimingBreakdown) :=
  (* Phase 1: DNS resolution *)
  let* t_dns_start := now w in
  let* addr_info := lift (x_getaddrinfo x) in
  let* t_dns_end := now w in
  let* _ := modify (set_dns_ms (ms t_dns_start t_dns_end)) in
  match addr_info with
  | [] =>
      let* _ := modify (set_error
                  (Some ("DNS resolution failed for " +:+ fmt_host host))) in
      let* timing := get_timing in
      ret (Some timing)
  | ai :: _ =>
      let* _ := modify (set_ip_address (ai_sockaddr ai).1) in
      (* Phase 2: TCP connection *)
      let* t_tcp_start := now w in
      let* _ := lift (x_connect x) in
      let* t_tcp_end := now w in
      let* _ := modify (set_tcp_connect_ms (ms t_tcp_start t_tcp_end)) in
      (* Phase 3: TLS handshake *)
      let* _ := tls_phase w x is_https in
      (* Phase 4: send the request, wait for the first byte *)
      let* t_send_start := now w in
      let* _ := lift (x_sendall x) in
      let* chunk := lift (x_recv_first x) in
      let* t_first_byte := now w in
      let* _ := modify (set_server_processing_ms (ms t_send_start t_first_byte)) in
      let response_data := [] ++ chunk in
      (* Phase 5: content transfer *)
      let* t_transfer_start := now w in
      let* response_data := lift (read_loop (x_recv_rest x) response_data).1 in
      let* t_transfer_end := now w in
      let* _ := modify (set_content_transfer_ms (ms t_transfer_start t_transfer_end)) in
      let* _ := modify (parse_response response_data) in
      (* Total *)
      let* _ := modify (fun timing => set_total_ms (phase_sum timing) timing) in
      ret None
  end.

(** [timing.headers_received.get("location", "")] *)
Definition location_of (t : TimingBreakdown) : string :=
  default "" (headers_received t !! "location").

(** The redirect block. [follow] is the recursive call when
    [max_redirects > 0], and [None] otherwise. The result is the value
    of the [return] inside the [try], or [None] to fall through to the
    final [return timing]. *)
Definition redirect_block (url scheme : string) (host : option string)
  (follow_redirects : bool)
  (follow : option (string → nat → outcome TimingBreakdown * nat))
  : M (option TimingBreakdown) :=
  let* timing := get_timing in
  match follow with
  | Some trace =>
      if follow_redirects && is_redirect (status_code timing) then
        match location_of timing with
        | String _ _ =>
            let location := redirect_target scheme host (location_of timing) in
            let* redirect_timing := call (trace location) in
            ret (Some (fold_redirect url timing redirect_timing))
        | EmptyString => ret None
        end
      else ret None
  | None => ret None
  end.

(** The body of the [try]. *)
Definition try_body (w : World) (x : Exchange) (url scheme : string)
  (host : option string) (is_https follow_redirects : bool)
  (follow : option (string → nat → outcome TimingBreakdown * nat))
  : M (option TimingBreakdown) :=
  let* early := measure w x host is_https in
  match early with
  | Some timing => ret (Some timing)
  | None => redirect_block url scheme host follow_redirects follow
  end.

(** [parsed.port or (443 if is_https else 80)] *)
Definition port_or_default (parsed_port : option Z) (is_https : bool) : Z :=
  match parsed_port with
  | Some p => if p =? 0 then (if is_https then 443 else 80) else p
  | None => if is_https then 443 else 80
  end.

(** [parsed.path or "/"], then the query when there is one. *)
Definition request_path (parsed : ParseResult) : string :=
  let path := match path parsed with "" => "/" | p => p end in
  match query parsed with
  | "" => path
  | q => path +:+ "?" +:+ q
  end.

(** The record created before the [try]. *)
Definition initial_timing (url method : string)
  (headers : option (list (string * string))) : TimingBreakdown :=
  let t0 := TimingBreakdown_init url (str_upper method) in
  if truthy_dict headers then set_headers_sent (default [] headers) t0 else t0.

(** The [except] clauses and the final [return timing]. *)
Definition finish (w : World) (host : option string) (port : Z) (timeout : Qc)
  (r : outcome (option TimingBreakdown) * pstate) : outcome TimingBreakdown * nat :=
  match r with
  | (Returns (Some result), s) => (Returns result, tick s)
  | (Returns None, s) => (Returns (timing s), tick s)
  | (Raises e, s) =>
      (Returns (set_error (Some (handler w host port timeout e)) (timing s)), tick s)
  end.

(** One call of [trace_request], from the clock position [start]; the
    redirect budget is in [follow]. Lines 97-111 run before the [try]:
    what they raise leaves the function. *)
Definition probe (w : World) (url method : string)
  (headers : option (list (string * string))) (body : option string)
  (timeout : Qc) (follow_redirects : bool)
  (follow : option (string → nat → outcome TimingBreakdown * nat))
  (start : nat) : outcome TimingBreakdown * nat :=
  match urlparse w url with
  | Raises e => (Raises e, start)
  | Returns parsed =>
      let is_https := bool_decide (scheme parsed = "https") in
      let host := hostname parsed in
      match port parsed with
      | Raises e => (Raises e, start)
      | Returns parsed_port =>
          let port := port_or_default parsed_port is_https in
          let path := request_path parsed in
          let x := exchange w start host port is_https
                     (raw_request method path host headers body) in
          finish w host port timeout
            (try_body w x url (scheme parsed) host is_https follow_redirects
               follow (mkPS start (initial_timing url method headers)))
      end
  end.

(** The recursion on the redirect budget: [fuel] is [max_redirects]
    when positive and [0] otherwise. *)
Fixpoint trace_request_from (fuel : nat) (w : World) (method : string)
  (headers : option (list (string * string))) (body : option string)
  (timeout : Qc) (follow_redirects : bool) (url : string) (start : nat)
  : outcome TimingBreakdown * nat :=
  probe w url method headers body timeout follow_redirects
    match fuel with
    | S fuel' =>
        Some (trace_request_from fuel' w method headers body timeout follow_redirects)
    | O => None
    end
    start.

(** [trace_request(url, method, headers, body, timeout, follow_redirects,
    max_redirects)], started at clock position [start]. *)
Definition trace_request (w : World) (start : nat) (url method : string)
  (headers : option (list (string * string))) (body : option string)
  (timeout : Qc) (follow_redirects : bool) (max_redirects : Z)
  : outcome TimingBreakdown * nat :=
  trace_request_from (Z.to_nat max_redirects) w method headers body timeout
    follow_redirects url start.

(** [trace_multiple]: [count] probes in sequence. *)
Fixpoint trace_multiple_from (count : nat) (w : World) (start : nat)
  (url method : string) (headers : option (list (string * string)))
  (body : option string) (timeout : Qc)
  : outcome (list TimingBreakdown) * nat :=
  match count with
  | O => (Returns [], start)
  | S count' =>
      match trace_request w start url method headers body timeout true 10 with
      | (Returns result, n) =>
          match trace_multiple_from count' w n url method headers body timeout with
          | (Returns results, n') => (Returns (result :: results), n')
          | (Raises e, n') => (Raises e, n')
          end
      | (Raises e, n) => (Raises e, n)
      end
  end.

Definition trace_multiple (w : World) (start : nat) (url : string) (count : Z)
  (method : string) (headers : option (list (string * string)))
  (body : option string) (timeout : Qc) : outcome (list TimingBreakdown) * nat :=
  trace_multiple_from (Z.to_nat count) w start url method headers body timeout.

(** ** The concurrent runner *)

(** [results = {url: [] for url in urls}] *)
Definition empty_results (urls : list string) : gmap string (list TimingBreakdown) :=
  fold_left (fun m url => <[url := []]> m) urls ∅.

(** [tasks = [(url, i) for url in urls for i in range(count_per_url)]] *)
Definition make_tasks (urls : list string) (count_per_url : Z)
  : list (string * nat) :=
  urls ≫= (fun url => (fun i => (url, i)) <$> seq 0 (Z.to_nat count_per_url)).

(** The future of the [j]-th submitted task: [_trace_one(url)] runs in
    a worker of its own, against the world [worlds j] that the worker
    meets. *)
Definition submit (worlds : nat → World) (method : string)
  (headers : option (list (string * string))) (body : option string)
  (timeout : Qc) (j : nat) (task : string * nat)
  : outcome (string * TimingBreakdown) :=
  match (trace_request (worlds j) 0 task.1 method headers body timeout true 10).1 with
  | Returns result => Returns (task.1, result)
  | Raises e => Raises e
  end.

(** [as_completed(futures)]: the futures in the order in which they
    complete. [order] lists their indices in that order. *)
Definition as_completed {A} (futures : list A) (order : list nat) : list A :=
  omap (fun j => futures !! j) order.

(** The [for future in ...] loop: [future.result()] raises what the
    worker raised, and a result is appended to the list of its target. *)
Fixpoint collect (completed : list (outcome (string * TimingBreakdown)))
  (results : gmap string (list TimingBreakdown))
  : outcome (gmap string (list TimingBreakdown)) :=
  match completed with
  | [] => Returns results
  | Returns (url, result) :: completed' =>
      collect completed' (alter (fun l => l ++ [result]) url results)
  | Raises e :: _ => Raises e
  end.

(** [trace_concurrent(urls, count_per_url, method, headers, body,
    timeout, max_workers)]. [ThreadPoolExecutor] rejects
    [max_workers <= 0]. *)
Definition trace_concurrent (worlds : nat → World) (order : list nat)
  (urls : list string) (count_per_url : Z) (method : string)
  (headers : option (list (string * string))) (body : option string)
  (timeout : Qc) (max_workers : Z)
  : outcome (gmap string (list TimingBreakdown)) :=
  let results := empty_results urls in
  let tasks := make_tasks urls count_per_url in
  if max_workers <=? 0
  then Raises (ValueError "max_workers must be greater than 0")
  else
    let futures := imap (submit worlds method headers body timeout) tasks in
    collect (as_completed futures order) results.

(** ** The averager *)

(** The objects of type [TimingBreakdown] live in a store; a list of
    results is a list of references. *)
Abbreviation ref := nat.
Abbreviation store := (gmap nat TimingBreakdown).

(** Creating an object: a reference that is not in use. *)
Definition new (t : TimingBreakdown) (σ : store) : ref * store :=
  let r := fresh (dom σ) in (r, <[r := t]> σ).

(** [sum(xs)]: from [0], left to right. *)
Definition py_sum (xs : list Qc) : Qc := fold_left Qcplus xs 0%Qc.

Definition Qc_of_nat (n : nat) : Qc := Q2Qc (inject_Z (Z.of_nat n)).

(** [average_timing(results)]. Reading a reference that is not in the
    store does not happen for the results of probes; it is [None]. *)
Definition average_timing (results : list ref) (σ : store)
  : option (ref * store) :=
  rs ← mapM (fun r => σ !! r) results;
  match rs with
  | [] => Some (new TimingBreakdown_default σ)
  | first :: _ =>
      let n := Qc_of_nat (length rs) in
      let avg :=
        {| url := url first;
           method := method first;
           status_code := status_code first;
           dns_ms := py_sum (dns_ms <$> rs) / n;
           tcp_connect_ms := py_sum (tcp_connect_ms <$> rs) / n;
           tls_handshake_ms := py_sum (tls_handshake_ms <$> rs) / n;
           server_processing_ms := py_sum (server_processing_ms <$> rs) / n;
           content_transfer_ms := py_sum (content_transfer_ms <$> rs) / n;
           total_ms := py_sum (total_ms <$> rs) / n;
           response_size := response_size (List.last rs first);
           ip_address := ip_address first;
           tls_version := tls_version first;
           headers_sent := [];
           headers_received := ∅;
           response_body := "";
           geo_info := "";
           error := None |} in
      Some (new avg σ)
  end.

(** ** The hop of a probe and its redirect decision *)

(** The probe with redirects switched off: the record of the request
    itself. It is [trace_request] with [follow_redirects=False]. *)
Definition first_hop (w : World) (start : nat) (url method : string)
  (headers : option (list (string * string))) (body : option string)
  (timeout : Qc) : outcome TimingBreakdown * nat :=
  probe w url method headers body timeout false None start.

(** The condition under which the probe that measured [t] makes the
    follow-up call: the [try] reached the redirect block (no error was
    recorded) and the tests of lines 249-251 pass. *)
Definition wants_redirect (follow_redirects : bool) (max_redirects : Z)
  (t : TimingBreakdown) : bool :=
  bool_decide (error t = None)
  && follow_redirects && is_redirect (status_code t)
  && bool_decide (0 < max_redirects)
  && negb (bool_decide (location_of t = "")).

(** Whether the probe makes a follow-up call. *)
Definition attempts_redirect (w : World) (start : nat) (url method : string)
  (headers : option (list (string * string))) (body : option string)
  (timeout : Qc) (follow_redirects : bool) (max_redirects : Z) : bool :=
  match first_hop w start url method headers body timeout with
  | (Returns t, _) => wants_redirect follow_redirects max_redirects t
  | (Raises _, _) => false
  end.

(** A clock that never goes back. *)
Definition monotonic (w : World) : Prop :=
  ∀ n, (perf_counter w n ≤ perf_counter w (S n))%Qc.

Definition phases_nonneg (t : TimingBreakdown) : Prop :=
  (0 ≤ dns_ms t ∧ 0 ≤ tcp_connect_ms t ∧ 0 ≤ tls_handshake_ms t
   ∧ 0 ≤ server_processing_ms t ∧ 0 ≤ content_transfer_ms t)%Qc.

(** ** A scripted world for the examples

    One host, [example.com], that answers over plain HTTP. What
    [urlparse] gives for each URL below is what CPython's [urllib.parse]
    gives; other strings do not occur in the examples. *)

Definition parsed (scheme : string) (hostname : option string)
  (port : outcome (option Z)) (path : string) : ParseResult :=
  {| scheme := scheme; hostname := hostname; port := port; path := path;
     query := "" |}.

Definition demo_urlparse (u : string) : outcome ParseResult :=
  if bool_decide (u = "http://example.com/") then
    Returns (parsed "http" (Some "example.com") (Returns None) "/")
  else if bool_decide (u = "http://example.com/old") then
    Returns (parsed "http" (Some "example.com") (Returns None) "/old")
  else if bool_decide (u = "http://example.com/new") then
    Returns (parsed "http" (Some "example.com") (Returns None) "/new")
  else if bool_decide (u = "http://example.com/rel") then
    Returns (parsed "http" (Some "example.com") (Returns None) "/rel")
  else if bool_decide (u = "http://example.com/bad") then
    Returns (parsed "http" (Some "example.com") (Returns None) "/bad")
  else if bool_decide (u = "http://example.com/down") then
    Returns (parsed "http" (Some "example.com") (Returns None) "/down")
  else if bool_decide (u = "http://example.com:99999/") then
    Returns (parsed "http" (Some "example.com")
               (Raises (ValueError "Port out of range 0-65535")) "/")
  else Returns (parsed "" None (Returns None) u).

Definition response (status_line : string) (headers : list string) (body : string)
  : bytes :=
  encode status_line ++ CRLF
  ++ concat ((fun h => encode h ++ CRLF) <$> headers) ++ CRLF ++ encode body.

(** The server: the response to a request, by its request line. *)
Definition demo_server (request : bytes) : bytes :=
  if startswith (encode "GET /old ") request then
    response "HTTP/1.1 301 Moved Permanently" ["Location: /new"; "Content-Length: 0"] ""
  else if startswith (encode "GET /rel ") request then
    response "HTTP/1.1 301 Moved Permanently" ["Location: next"; "Content-Length: 0"] ""
  else if startswith (encode "GET /bad ") request then
    response "HTTP/1.1 301 Moved Permanently"
      ["Location: http://example.com:99999/"; "Content-Length: 0"] ""
  else response "HTTP/1.1 200 OK" ["Content-Length: 2"] "hi".

Definition demo_addr : addrinfo :=
  {| ai_family := 2; ai_socktype := 1; ai_proto := 6;
     ai_sockaddr := ("93.184.216.34", 80) |}.

Definition loopback_addr : addrinfo :=
  {| ai_family := 2; ai_socktype := 1; ai_proto := 6;
     ai_sockaddr := ("127.0.0.1", 80) |}.

(** Each response arrives whole in the first read; the connection is
    kept alive, so a further read gets nothing and times out. A request
    for [/down] finds the connection refused, and so does a probe without
    a host name, which goes to the local machine. *)
Definition demo_exchange (start : nat) (host : option string) (port : Z)
  (is_https : bool) (request : bytes) : Exchange :=
  {| x_getaddrinfo :=
       Returns [match host with Some _ => demo_addr | None => loopback_addr end];
     x_connect :=
       match host with
       | Some _ =>
           if startswith (encode "GET /down ") request
           then Raises (ConnectionRefusedError "[Errno 111] Connection refused")
           else Returns tt
       | None => Raises (ConnectionRefusedError "[Errno 111] Connection refused")
       end;
     x_wrap_socket := Returns (Some "TLSv1.3");
     x_sendall := Returns tt;
     x_recv_first := Returns (demo_server request);
     x_recv_rest := [] |}.

(** The clock advances by one millisecond from one reading to the next. *)
Definition demo_clock (n : nat) : Qc := Q2Qc (Z.of_nat n # 1000).

Definition demo_world : World :=
  {| urlparse := demo_urlparse;
     perf_counter := demo_clock;
     exchange := demo_exchange;
     float_str := fun _ => "30.0" |}.

Definition demo_timeout : Qc := Q2Qc (inject_Z 30).

(** ** Chunked bodies, as the claims speak of them *)

(** A chunk is its size line and its payload. The body is each chunk as
    size line, CR LF, payload, CR LF, then the terminating chunk. *)
Definition chunked_body (chunks : list (bytes * bytes)) : bytes :=
  concat ((fun c => c.1 ++ CRLF ++ c.2 ++ CRLF) <$> chunks) ++ LAST_CHUNK.

(** The length a size line declares, read as the code reads it. *)
Definition declared_length (size_line : bytes) : option Z :=
  int 16 (strip size_line).

Definition declared_total (chunks : list (bytes * bytes)) : Z :=
  foldr (fun c acc => default 0 (declared_length c.1) + acc) 0 chunks.

(** No CR LF inside. *)
Definition crlf_free (l : bytes) : Prop := split_crlf l = [l].

(** A chunk whose size line is a bare number in base 16, not zero, and
    whose size line and payload contain no CR LF. *)
Definition plain_chunk (c : bytes * bytes) : Prop :=
  crlf_free c.1 ∧ crlf_free c.2
  ∧ ∃ n, declared_length c.1 = Some n ∧ n ≠ 0.

(** A read that brings nothing: the end of the stream, a timeout, or
    the end of the script (which is a timeout). *)
Definition silent (r : option (outcome bytes)) : Prop :=
  match r with
  | None | Some (Returns []) | Some (Raises (socket_timeout _)) => True
  | _ => False
  end.

(** The header lines as the loop sees them, when the header section is
    complete. *)
Definition header_lines (response_data : bytes) : list bytes :=
  match find CRLFCRLF response_data with
  | Some p => split_crlf (lower (take p response_data))
  | None => []
  end.

Definition no_content_length (response_data : bytes) : Prop :=
  Forall (fun line => startswith CONTENT_LENGTH line = false)
         (header_lines response_data).

Definition demo_ok : bytes :=
  response "HTTP/1.1 200 OK" ["Content-Length: 2"] "hi".

Definition demo_chunked_head : bytes :=
  response "HTTP/1.1 200 OK" ["Transfer-Encoding: chunked"] "".

(** ** The arithmetic mean, as the claims speak of it *)

Definition arith_mean (xs : list Qc) : Qc :=
  (foldr Qcplus 0 xs / Qc_of_nat (length xs))%Qc.

(** Two records of one target, for the examples of the averager. *)
Definition demo_sample (total : Z) (size : Z) (ip : string) : TimingBreakdown :=
  mkTB (Q2Qc (inject_Z 1)) (Q2Qc (inject_Z 2)) 0 (Q2Qc (inject_Z 3))
    (Q2Qc (inject_Z (total - 6))) (Q2Qc (inject_Z total))
    "http://example.com/" "GET" 200 size [] ∅ ip "" "hi" "" None.

Definition demo_store : store :=
  <[1%nat := demo_sample 10 2 "93.184.216.34"]>
    (<[0%nat := demo_sample 20 7 "93.184.216.35"]> ∅).

(** ** The exchange of a probe *)

(** The exchange that the probe of [url] started at [start] meets: the
    host, port and request that lines 98-111 and 146-154 compute. *)
Definition exchange_of (w : World) (start : nat) (parsed : ParseResult)
  (parsed_port : option Z) (method : string)
  (headers : option (list (string * string))) (body : option string) : Exchange :=
  let is_https := bool_decide (scheme parsed = "https") in
  exchange w start (hostname parsed) (port_or_default parsed_port is_https) is_https
    (raw_request method (request_path parsed) (hostname parsed) headers body).

(** A world in which every probe meets the exchange [x]. *)
Definition scripted_world (x : Exchange) : World :=
  {| urlparse := demo_urlparse;
     perf_counter := demo_clock;
     exchange := fun _ _ _ _ _ => x;
     float_str := fun _ => "30.0" |}.

(** The name does not resolve. *)
Definition dns_down : Exchange :=
  {| x_getaddrinfo := Raises (gaierror "[Errno -2] Name or service not known");
     x_connect := Returns tt;
     x_wrap_socket := Returns None;
     x_sendall := Returns tt;
     x_recv_first := Returns [];
     x_recv_rest := [] |}.

(** The resolver answers with no address. *)
Definition dns_empty : Exchange :=
  {| x_getaddrinfo := Returns [];
     x_connect := Returns tt;
     x_wrap_socket := Returns None;
     x_sendall := Returns tt;
     x_recv_first := Returns [];
     x_recv_rest := [] |}.

(** The server accepts the connection and the request, and says nothing. *)
Definition server_silent : Exchange :=
  {| x_getaddrinfo := Returns [demo_addr];
     x_connect := Returns tt;
     x_wrap_socket := Returns None;
     x_sendall := Returns tt;
     x_recv_first := Raises (socket_timeout "timed out");
     x_recv_rest := [] |}.

(** A server whose [Content-Length] is not a number; the body comes in a
    second read. *)
Definition bad_length : Exchange :=
  {| x_getaddrinfo := Returns [demo_addr];
     x_connect := Returns tt;
     x_wrap_socket := Returns None;
     x_sendall := Returns tt;
     x_recv_first := Returns (response "HTTP/1.1 200 OK" ["Content-Length: two"] "");
     x_recv_rest := [Returns (encode "hi")] |}.

(** ** What holds of every record *)

(** No duration is negative, and without an error the phases are within
    the total. *)
Definition accounted (t : TimingBreakdown) : Prop :=
  phases_nonneg t ∧ (0 ≤ total_ms t)%Qc
  ∧ (error t = None → (phase_sum t ≤ total_ms t)%Qc).

(** The header names are in lower case and the body text is at most
    4000 characters long. *)
Definition received_ok (t : TimingBreakdown) : Prop :=
  (∀ k v, headers_received t !! k = Some v → str_lower k = k)
  ∧ (String.length (response_body t) ≤ 4000)%nat.

(** ** The callers *)

(** What the command line and the dashboard do to a URL before they
    call the tracer ([cli.py], [dashboard/app.py]):
    [if not url.startswith("http://") and not url.startswith("https://"):
    url = f"https://{url}"]. *)
Definition normalize_url (url : string) : string :=
  if negb (str_startswith "http://" url) && negb (str_startswith "https://" url)
  then "https://" +:+ url
  else url.

(** Python's [min(a, b)]: [b] when [b < a], else [a]. *)
Definition py_min (a b : Qc) : Qc := if Qclt_le_dec b a then b else a.

(** [int(x)] of a float: the integer part, towards zero. *)
Definition py_int (x : Qc) : Z := Z.quot (Qnum x) (Zpos (Qden x)).

(** The two characters of a bar. *)
Inductive cell := Full | Light.

(** [_phase_bar(value, total, width)] ([cli.py]); [c * n] of a string
    is empty for a negative [n]. *)
Definition _phase_bar (value total : Qc) (width : Z) : list cell :=
  if bool_decide (total = 0%Qc) then []
  else
    let ratio := py_min (value / total) (Q2Qc (inject_Z 1)) in
    let filled := py_int (ratio * Q2Qc (inject_Z width)) in
    replicate (Z.to_nat filled) Full ++ replicate (Z.to_nat (width - filled)) Light.

(** ** cURL commands *)

(** [l.replace(old, new)] for a non-empty [old]: the occurrences of
    [old] are found from the left and do not overlap. [skip] counts the
    bytes of the occurrence being replaced that are still to pass. *)
Fixpoint replace_skip (old new : bytes) (skip : nat) (l : bytes) : bytes :=
  match l with
  | [] => []
  | b :: t =>
      match skip with
      | S k => replace_skip old new k t
      | O =>
          if startswith old l then new ++ replace_skip old new (length old - 1) t
          else b :: replace_skip old new 0 t
      end
  end.

Definition replace (old new l : bytes) : bytes := replace_skip old new 0 l.

(** [s.split()]: the words between runs of whitespace. [cur] is the
    word being read. *)
Fixpoint split_ws (cur l : bytes) : list bytes :=
  match l with
  | [] => match cur with [] => [] | _ => [cur] end
  | b :: t =>
      if is_uspace b
      then match cur with [] => split_ws [] t | _ => cur :: split_ws [] t end
      else split_ws (cur ++ [b]) t
  end.

Definition str_split (s : string) : list string := decode <$> split_ws [] (encode s).

(** [base64.b64encode] *)
Definition b64_alphabet : bytes :=
  encode "ABCDEFGHIJKLMNOPQRSTUVWXYZabcdefghijklmnopqrstuvwxyz0123456789+/".

Definition b64_digit (n : N) : byte :=
  default x3d (b64_alphabet !! N.to_nat (n mod 64)%N).

Fixpoint b64encode (l : bytes) : bytes :=
  match l with
  | [] => []
  | [a] =>
      let n := (Byte.to_N a * 16)%N in
      [b64_digit (n / 64); b64_digit n; x3d; x3d]
  | [a; b] =>
      let n := ((Byte.to_N a * 256 + Byte.to_N b) * 4)%N in
      [b64_digit (n / 4096); b64_digit (n / 64); b64_digit n; x3d]
  | a :: b :: c :: t =>
      let n := (Byte.to_N a * 65536 + Byte.to_N b * 256 + Byte.to_N c)%N in
      [b64_digit (n / 262144); b64_digit (n / 4096); b64_digit (n / 64); b64_digit n]
      ++ b64encode t
  end.

Module Curl.

(** The dict that [parse_curl] returns. *)
Record params := mk {
  url : string;
  method : string;
  headers : list (string * string);
  body : option string
}.

Definition set_url (v : string) (p : params) : params :=
  mk v (method p) (headers p) (body p).
Definition set_method (v : string) (p : params) : params :=
  mk (url p) v (headers p) (body p).
Definition set_headers (v : list (string * string)) (p : params) : params :=
  mk (url p) (method p) v (body p).
Definition set_body (v : option string) (p : params) : params :=
  mk (url p) (method p) (headers p) v.

(** The variables before the loop. *)
Definition init : params := mk "" "GET" [] None.

End Curl.

(** The argument of [-H]: split at the first [": "], or else at the
    first [":"] with both sides stripped; without a colon it is dropped. *)
Definition curl_header (h : string) (headers : list (string * string))
  : list (string * string) :=
  match split1 COLON_SP (encode h) with
  | Some (k, v) => dict_set (decode k) (decode v) headers
  | None =>
      match split1 COLON (encode h) with
      | Some (k, v) => dict_set (decode (str_strip k)) (decode (str_strip v)) headers
      | None => headers
      end
  end.

Definition REQUEST_FLAGS : list string := ["-X"; "--request"].
Definition HEADER_FLAGS : list string := ["-H"; "--header"].
Definition DATA_FLAGS : list string := ["-d"; "--data"; "--data-raw"; "--data-binary"].
Definition USER_FLAGS : list string := ["-u"; "--user"].
Definition IGNORED_FLAGS : list string :=
  ["-k"; "--insecure"; "-s"; "--silent"; "-v"; "--verbose"; "-L"; "--location";
   "-i"; "--include"; "--compressed"].
Definition ARGUMENT_FLAGS : list string :=
  ["-o"; "--output"; "-w"; "--write-out"; "--connect-timeout"; "--max-time";
   "-A"; "--user-agent"].
Definition AGENT_FLAGS : list string := ["-A"; "--user-agent"].

(** One pass through the body of the [while]: the token at [i], the
    token at [i + 1] when [i + 1 < len(tokens)], and the variables. The
    result is the variables after the pass and whether [i] advances by
    two. *)
Definition curl_step (tok : string) (next : option string) (p : Curl.params)
  : Curl.params * bool :=
  let has_next := bool_decide (is_Some next) in
  let arg := default "" next in
  if bool_decide (tok ∈ REQUEST_FLAGS) && has_next then
    (Curl.set_method (str_upper arg) p, true)
  else if bool_decide (tok ∈ HEADER_FLAGS) && has_next then
    (Curl.set_headers (curl_header arg (Curl.headers p)) p, true)
  else if bool_decide (tok ∈ DATA_FLAGS) && has_next then
    let p := Curl.set_body (Some arg) p in
    (if bool_decide (Curl.method p = "GET") then Curl.set_method "POST" p else p, true)
  else if bool_decide (tok ∈ USER_FLAGS) && has_next then
    let creds := decode (b64encode (encode arg)) in
    (Curl.set_headers (dict_set "Authorization" ("Basic " +:+ creds) (Curl.headers p)) p,
     true)
  else if str_startswith "http://" tok || str_startswith "https://" tok then
    (Curl.set_url tok p, false)
  else if bool_decide (tok ∈ IGNORED_FLAGS) then (p, false)
  else if bool_decide (tok ∈ ARGUMENT_FLAGS) && has_next then
    (if bool_decide (tok ∈ AGENT_FLAGS)
     then Curl.set_headers (dict_set "User-Agent" arg (Curl.headers p)) p
     else p, true)
  else
    (if bool_decide (Curl.url p = "") && negb (str_startswith "-" tok)
     then Curl.set_url tok p else p, false).

(** The [while i < len(tokens)] loop, on the tokens from index [i] on. *)
Fixpoint curl_loop (tokens : list string) (p : Curl.params) : Curl.params :=
  match tokens with
  | [] => p
  | tok :: rest =>
      match curl_step tok (head rest) p with
      | (p', false) => curl_loop rest p'
      | (p', true) =>
          match rest with
          | _ :: rest' => curl_loop rest' p'
          | [] => p'
          end
      end
  end.

(** Lines 380-392: the command without its [curl] prefix and its line
    continuations, cut into tokens by [shlex.split], or by [str.split]
    when [shlex.split] raises [ValueError]. [shlex.split] is a parameter,
    as [urlparse] is a field of the world. *)
Definition curl_tokens (shlex_split : string → outcome (list string))
  (curl_command : string) : outcome (list string) :=
  let cmd := str_strip (encode curl_command) in
  let cmd :=
    if startswith (encode "curl ") cmd then drop 5 cmd
    else if startswith (encode "curl" ++ [LF]) cmd then drop 5 cmd
    else cmd in
  let cmd := replace [x5c; LF] SP cmd in
  let cmd := replace [x5c; CR; LF] SP cmd in
  match shlex_split (decode cmd) with
  | Returns tokens => Returns tokens
  | Raises (ValueError _) => Returns (str_split (decode cmd))
  | Raises e => Raises e
  end.

(** [parse_curl(curl_command)] *)
Definition parse_curl (shlex_split : string → outcome (list string))
  (curl_command : string) : outcome Curl.params :=
  match curl_tokens shlex_split curl_command with
  | Returns tokens => Returns (curl_loop tokens Curl.init)
  | Raises e => Raises e
  end.

(** What [shlex.split] gives for the commands of the examples; on the
    third it finds the quotation open. *)
Definition demo_shlex (cmd : string) : outcome (list string) :=
  if bool_decide (cmd = "-d 'a=1' http://example.com/") then
    Returns ["-d"; "a=1"; "http://example.com/"]
  else if bool_decide (cmd = "-x -X put example.com") then
    Returns ["-x"; "-X"; "put"; "example.com"]
  else Raises (ValueError "No closing quotation").

(** * Properties *)

Arguments ms : simpl never.
Arguments parse_response : simpl never.
Arguments handler : simpl never.

(** ** The Python operations on sample inputs *)

Example find_ex : find CRLF (encode "ab" ++ CRLF ++ encode "c") = Some 2%nat.
Proof. reflexivity. Qed.

Example find_absent_ex : find CRLFCRLF (encode "ab" ++ CRLF) = None.
Proof. reflexivity. Qed.

Example split_crlf_ex :
  split_crlf (encode "3" ++ CRLF ++ encode "abc" ++ CRLF ++ LAST_CHUNK)
  = [encode "3"; encode "abc"; encode "0"; []; []].
Proof. reflexivity. Qed.

Example split_crlf_lone_cr_ex :
  split_crlf (encode "a" ++ [CR] ++ CRLF ++ [LF]) = [encode "a" ++ [CR]; [LF]].
Proof. reflexivity. Qed.

Example strip_ex : strip (encode "  1f" ++ [CR]) = encode "1f".
Proof. reflexivity. Qed.

Example int_ex1 : int 16 (encode " 1f ") = Some 31.
Proof. reflexivity. Qed.

Example int_ex2 : int 16 (encode "-0x_A") = Some (-10).
Proof. reflexivity. Qed.

Example int_ex3 : int 16 (encode "5;ext") = None.
Proof. reflexivity. Qed.

Example int_ex4 : int 10 (encode "1__0") = None.
Proof. reflexivity. Qed.

Example int_ex5 : int 10 (encode "1f") = None.
Proof. reflexivity. Qed.

Example endswith_ex : endswith LAST_CHUNK (encode "abc0" ++ CRLFCRLF) = true.
Proof. reflexivity. Qed.

Example status_field_ex :
  status_field (encode "HTTP/1.1 301 Moved Permanently") = Some (encode "301").
Proof. reflexivity. Qed.

Example parse_chunked_size_ex :
  _parse_chunked_size
    (chunked_body [(encode "3", encode "abc"); (encode "A", encode "0123456789")])
  = 13.
Proof. reflexivity. Qed.

Example raw_request_ex :
  decode (raw_request "get" "/x" (Some "h")
            (Some [("Accept", "text/html"); ("X", "1")]) (Some "abc"))
  = "GET /x HTTP/1.1" +:+ crlf +:+ "Host: h" +:+ crlf
    +:+ "User-Agent: TracePulse/1.0" +:+ crlf +:+ "Accept: text/html" +:+ crlf
    +:+ "X: 1" +:+ crlf +:+ "Content-Length: 3" +:+ crlf +:+ crlf +:+ "abc".
Proof. reflexivity. Qed.

(** ** Records: what an assignment changes *)

Ltac tb := intros; repeat match goal with t : TimingBreakdown |- _ => destruct t end;
           reflexivity.

Lemma total_set_total v t : total_ms (set_total_ms v t) = v.
Proof. tb. Qed.
Lemma phase_sum_set_total v t : phase_sum (set_total_ms v t) = phase_sum t.
Proof. tb. Qed.
Lemma error_set_total v t : error (set_total_ms v t) = error t.
Proof. tb. Qed.
Lemma url_set_total v t : url (set_total_ms v t) = url t.
Proof. tb. Qed.
Lemma error_set_error v t : error (set_error v t) = v.
Proof. tb. Qed.
Lemma total_set_error v t : total_ms (set_error v t) = total_ms t.
Proof. tb. Qed.
Lemma phase_sum_set_error v t : phase_sum (set_error v t) = phase_sum t.
Proof. tb. Qed.
Lemma url_set_error v t : url (set_error v t) = url t.
Proof. tb. Qed.
Lemma status_set_error v t : status_code (set_error v t) = status_code t.
Proof. tb. Qed.

(** Parsing the response touches none of the timings, nor the URL, nor
    the error. *)
Lemma parse_response_frame d t :
  let t' := parse_response d t in
  dns_ms t' = dns_ms t ∧ tcp_connect_ms t' = tcp_connect_ms t
  ∧ tls_handshake_ms t' = tls_handshake_ms t
  ∧ server_processing_ms t' = server_processing_ms t
  ∧ content_transfer_ms t' = content_transfer_ms t
  ∧ total_ms t' = total_ms t ∧ url t' = url t ∧ error t' = error t.
Proof.
  unfold parse_response. destruct t. cbn.
  destruct (find CRLFCRLF d); [|done].
  destruct (parse_status _) as [[c|]|e]; cbn; try done;
    destruct (is_chunked _); done.
Qed.

Lemma phase_sum_parse_response d t : phase_sum (parse_response d t) = phase_sum t.
Proof.
  destruct (parse_response_frame d t) as (H1 & H2 & H3 & H4 & H5 & _).
  unfold phase_sum. by rewrite H1, H2, H3, H4, H5.
Qed.

(** ** What the measured part of a probe leaves in the record *)

Ltac run_measure :=
  unfold measure, tls_phase, bind, lift, now, modify, get_timing, ret; cbn.

Lemma measure_spec w x host https s0 :
  match measure w x host https s0 with
  | (Raises _, s) =>
      error (timing s) = error (timing s0)
      ∧ total_ms (timing s) = total_ms (timing s0)
      ∧ url (timing s) = url (timing s0)
      ∧ status_code (timing s) = status_code (timing s0)
  | (Returns (Some t), s) =>
      t = timing s ∧ is_Some (error t)
      ∧ total_ms t = total_ms (timing s0) ∧ url t = url (timing s0)
      ∧ status_code t = status_code (timing s0)
  | (Returns None, s) =>
      error (timing s) = error (timing s0)
      ∧ total_ms (timing s) = phase_sum (timing s)
      ∧ url (timing s) = url (timing s0)
  end.
Proof.
  destruct s0 as [n t0]. destruct t0. run_measure.
  destruct (x_getaddrinfo x) as [[|ai ais]|e]; cbn; [by eauto | | done].
  destruct (x_connect x) as [[]|e]; cbn; [|done].
  destruct https; cbn;
    [destruct (x_wrap_socket x) as [v|e]; cbn; [|done] |];
    (destruct (x_sendall x) as [[]|e]; cbn; [|done]);
    (destruct (x_recv_first x) as [chunk|e]; cbn; [|done]);
    (destruct (read_loop _ _).1 as [data|e]; cbn; [|done]);
    rewrite total_set_total, phase_sum_set_total, error_set_total, url_set_total;
    match goal with
    | |- context [parse_response ?d ?t] =>
        destruct (parse_response_frame d t) as (_ & _ & _ & _ & _ & _ & Hu & He)
    end; cbn in Hu, He; by rewrite Hu, He.
Qed.

Lemma ms_nonneg (a b : Qc) : (a ≤ b)%Qc → (0 ≤ ms a b)%Qc.
Proof.
  intros H. unfold ms. apply Qcmult_nonneg_nonneg; [|done].
  unfold Qcminus. apply Qcle_minus_iff in H. exact H.
Qed.

Lemma parse_response_nonneg d t : phases_nonneg t → phases_nonneg (parse_response d t).
Proof.
  destruct (parse_response_frame d t) as (H1 & H2 & H3 & H4 & H5 & _).
  unfold phases_nonneg. by rewrite H1, H2, H3, H4, H5.
Qed.

(** With a clock that never goes back, no phase is given a negative
    duration. *)
Lemma measure_nonneg w x host https s0 :
  monotonic w → phases_nonneg (timing s0) →
  phases_nonneg (timing (measure w x host https s0).2).
Proof.
  intros Hw H0. destruct s0 as [n t0]. destruct t0.
  unfold phases_nonneg in H0; cbn in H0. destruct H0 as (? & ? & ? & ? & ?).
  pose proof (λ k, ms_nonneg _ _ (Hw k)) as Hms.
  assert (∀ v t, phases_nonneg t → phases_nonneg (set_total_ms v t)) as Htot
    by (intros v t; by destruct t).
  run_measure.
  destruct (x_getaddrinfo x) as [[|ai ais]|e]; cbn;
    [repeat split; cbn; auto | | repeat split; cbn; auto].
  destruct (x_connect x) as [[]|e]; cbn; [|repeat split; cbn; auto].
  destruct https; cbn;
    [destruct (x_wrap_socket x) as [v|e]; cbn; [|repeat split; cbn; auto] |];
    (destruct (x_sendall x) as [[]|e]; cbn; [|repeat split; cbn; auto]);
    (destruct (x_recv_first x) as [chunk|e]; cbn; [|repeat split; cbn; auto]);
    (destruct (read_loop _ _).1 as [data|e]; cbn; [|repeat split; cbn; auto]);
    apply Htot, parse_response_nonneg; repeat split; cbn; auto.
Qed.

Lemma error_initial_timing u m hs : error (initial_timing u m hs) = None.
Proof. unfold initial_timing. by destruct (truthy_dict hs). Qed.

Lemma total_initial_timing u m hs : total_ms (initial_timing u m hs) = 0%Qc.
Proof. unfold initial_timing. by destruct (truthy_dict hs). Qed.

Lemma url_initial_timing u m hs : url (initial_timing u m hs) = u.
Proof. unfold initial_timing. by destruct (truthy_dict hs). Qed.

Lemma status_initial_timing u m hs : status_code (initial_timing u m hs) = 0.
Proof. unfold initial_timing. by destruct (truthy_dict hs). Qed.

Lemma initial_timing_nonneg u m hs : phases_nonneg (initial_timing u m hs).
Proof. unfold initial_timing. by destruct (truthy_dict hs). Qed.

(** ** The probe in terms of its first hop *)

(** A probe whose URL parses is its first hop, then the redirect
    decision on the record of that hop, then the fold of the follow-up
    call; what the follow-up raises is caught by the [except] clauses of
    the caller. *)
Lemma probe_eq w url method headers body timeout fr follow start parsed pp :
  urlparse w url = Returns parsed → port parsed = Returns pp →
  ∃ t n,
    first_hop w start url method headers body timeout = (Returns t, n)
    ∧ probe w url method headers body timeout fr follow start =
      match follow with
      | Some trace =>
          if bool_decide (error t = None) && fr && is_redirect (status_code t)
             && negb (bool_decide (location_of t = ""))
          then
            match trace (redirect_target (scheme parsed) (hostname parsed)
                           (location_of t)) n with
            | (Returns rt, n') => (Returns (fold_redirect url t rt), n')
            | (Raises e, n') =>
                (Returns (set_error
                   (Some (handler w (hostname parsed)
                            (port_or_default pp (bool_decide (scheme parsed = "https")))
                            timeout e)) t), n')
            end
          else (Returns t, n)
      | None => (Returns t, n)
      end.
Proof.
  intros Hp Hpp. unfold first_hop, probe. rewrite Hp, Hpp.
  unfold try_body, bind.
  match goal with |- context [measure ?w ?x ?h ?s ?s0] =>
    pose proof (measure_spec w x h s s0) as Hm;
    destruct (measure w x h s s0) as [[[t|]|e] s1] end; cbn in Hm.
  - destruct Hm as (-> & [msg Hmsg] & _). eexists _, _. split; [done|].
    cbn. rewrite Hmsg. cbn. by destruct follow.
  - destruct Hm as (He & _). rewrite error_initial_timing in He.
    unfold redirect_block, bind, get_timing, ret, call. cbn.
    eexists _, _. split; [done|].
    destruct follow as [trace|]; [|done].
    rewrite He. cbn. destruct fr; cbn; [|done].
    destruct (is_redirect _); cbn; [|done].
    destruct (location_of (timing s1)) eqn:Hl; cbn; [done|].
    by destruct (trace _ _) as [[rt|e] n'].
  - eexists _, _. split; [done|]. cbn.
    rewrite error_set_error. cbn. by destruct follow.
Qed.

(** What the record of a first hop looks like. *)
Lemma first_hop_spec w start u m hs body timeout t n :
  first_hop w start u m hs body timeout = (Returns t, n) →
  url t = u
  ∧ (error t = None → total_ms t = phase_sum t)
  ∧ (error t ≠ None → total_ms t = 0%Qc ∧ status_code t = 0)
  ∧ (monotonic w → phases_nonneg t).
Proof.
  unfold first_hop, probe.
  destruct (urlparse w u) as [parsed|e]; [|done].
  destruct (port parsed) as [pp|e]; [|done].
  unfold try_body, bind.
  match goal with |- context [measure ?w ?x ?h ?s ?s0] =>
    pose proof (measure_spec w x h s s0) as Hm;
    pose proof (measure_nonneg w x h s s0) as Hn;
    destruct (measure w x h s s0) as [[[t'|]|e] s1] end; cbn in Hm, Hn.
  all: rewrite ?error_initial_timing, ?total_initial_timing, ?url_initial_timing,
         ?status_initial_timing in Hm.
  all: specialize (λ H, Hn H (initial_timing_nonneg _ _ _)).
  - destruct Hm as (-> & [msg Hmsg] & Ht & Hu & Hs). cbn. intros [= <- <-].
    rewrite Hmsg. by split_and!.
  - destruct Hm as (He & Ht & Hu).
    unfold redirect_block, bind, get_timing, ret. cbn. intros [= <- <-].
    rewrite He. by split_and!.
  - destruct Hm as (He & Ht & Hu & Hs). cbn. intros [= <- <-].
    rewrite error_set_error, total_set_error, url_set_error, status_set_error.
    split_and!; try done. intros Hw. specialize (Hn Hw).
    revert Hn. generalize (timing s1). intros t1 Hn. by destruct t1.
Qed.

(** A probe raises exactly what the lines before its [try] raise. *)
Lemma probe_raises w u m hs body timeout fr follow start e n :
  probe w u m hs body timeout fr follow start = (Raises e, n) ↔
  n = start ∧ (urlparse w u = Raises e
               ∨ ∃ parsed, urlparse w u = Returns parsed ∧ port parsed = Raises e).
Proof.
  unfold probe. destruct (urlparse w u) as [parsed|e'] eqn:Hp.
  - destruct (port parsed) as [pp|e'] eqn:Hpp.
    + split; [|intros (_ & [H|(p' & H1 & H2)]); congruence].
      unfold finish. by destruct (try_body _ _ _ _ _ _ _ _ _) as [[[?|]|?] ?].
    + split; [intros [= <- <-]; eauto|].
      intros (-> & [H|(p' & H1 & H2)]); congruence.
  - split; [intros [= <- <-]; eauto|].
    intros (-> & [H|(p' & H1 & H2)]); congruence.
Qed.

Lemma trace_request_unfold w start u m hs body timeout fr mr :
  trace_request w start u m hs body timeout fr mr =
  probe w u m hs body timeout fr
    (if bool_decide (0 < mr)
     then Some (λ loc n, trace_request w n loc m hs body timeout fr (mr - 1))
     else None) start.
Proof.
  unfold trace_request. case_bool_decide as Hmr.
  - destruct (Z.to_nat mr) as [|f] eqn:Hf; [lia|]. cbn.
    by replace (Z.to_nat (mr - 1)) with f by lia.
  - by replace (Z.to_nat mr) with 0%nat by lia.
Qed.

(** [trace_request] is its first hop followed, when the redirect is
    wanted, by [trace_request] on the redirect target with one unit of
    budget less, folded into the result. *)
Lemma trace_request_step w start u m hs body timeout fr mr parsed pp :
  urlparse w u = Returns parsed → port parsed = Returns pp →
  ∃ t n,
    first_hop w start u m hs body timeout = (Returns t, n)
    ∧ trace_request w start u m hs body timeout fr mr =
      if wants_redirect fr mr t then
        match trace_request w n
                (redirect_target (scheme parsed) (hostname parsed) (location_of t))
                m hs body timeout fr (mr - 1) with
        | (Returns rt, n') => (Returns (fold_redirect u t rt), n')
        | (Raises e, n') =>
            (Returns (set_error
               (Some (handler w (hostname parsed)
                        (port_or_default pp (bool_decide (scheme parsed = "https")))
                        timeout e)) t), n')
        end
      else (Returns t, n).
Proof.
  intros Hp Hpp. rewrite trace_request_unfold.
  destruct (probe_eq w u m hs body timeout fr
              (if bool_decide (0 < mr)
               then Some (λ loc n, trace_request w n loc m hs body timeout fr (mr - 1))
               else None) start parsed pp Hp Hpp) as (t & n & Hh & Heq).
  exists t, n. split; [done|]. rewrite Heq. unfold wants_redirect.
  case_bool_decide as Hmr; cbn.
  - by rewrite andb_true_r.
  - by rewrite andb_false_r.
Qed.

Lemma trace_request_raises w start u m hs body timeout fr mr e n :
  trace_request w start u m hs body timeout fr mr = (Raises e, n) ↔
  n = start ∧ (urlparse w u = Raises e
               ∨ ∃ parsed, urlparse w u = Returns parsed ∧ port parsed = Raises e).
Proof. rewrite trace_request_unfold. apply probe_raises. Qed.

Lemma trace_request_returns_parsed w start u m hs body timeout fr mr t n :
  trace_request w start u m hs body timeout fr mr = (Returns t, n) →
  ∃ parsed pp, urlparse w u = Returns parsed ∧ port parsed = Returns pp.
Proof.
  rewrite trace_request_unfold. unfold probe.
  destruct (urlparse w u) as [parsed|e]; [|done].
  destruct (port parsed) as [pp|e] eqn:Hpp; [|done]. eauto.
Qed.

(** A hop that has a status code has recorded no error: the status is
    read from the response after all five phases. *)
Lemma first_hop_status_no_error w start u m hs body timeout t n :
  first_hop w start u m hs body timeout = (Returns t, n) →
  is_redirect (status_code t) = true → error t = None.
Proof.
  intros Hh Hr. destruct (first_hop_spec _ _ _ _ _ _ _ _ _ Hh) as (_ & _ & He & _).
  destruct (error t) eqn:E; [|done].
  destruct He as [_ Hs]; [done|]. by rewrite Hs in Hr.
Qed.

Lemma py_max_0_0 : py_max 0 0 = 0%Qc.
Proof. reflexivity. Qed.

Lemma overhead_when_total_is_sum t : total_ms t = phase_sum t → overhead_ms t = 0%Qc.
Proof.
  intros H. unfold overhead_ms. rewrite H.
  replace (phase_sum t - phase_sum t)%Qc with 0%Qc by ring. apply py_max_0_0.
Qed.

Lemma phase_sum_nonneg t : phases_nonneg t → (0 ≤ phase_sum t)%Qc.
Proof.
  intros (? & ? & ? & ? & ?). unfold phase_sum.
  do 3 (apply Qcplus_nonneg_nonneg; [|done]). by apply Qcplus_nonneg_nonneg.
Qed.

Lemma phase_sum_pos t :
  phases_nonneg t →
  (0 < dns_ms t ∨ 0 < tcp_connect_ms t ∨ 0 < tls_handshake_ms t
   ∨ 0 < server_processing_ms t ∨ 0 < content_transfer_ms t)%Qc →
  (0 < phase_sum t)%Qc.
Proof.
  intros (? & ? & ? & ? & ?) Hpos. unfold phase_sum.
  destruct Hpos as [?|[?|[?|[?|?]]]].
  - by do 4 (apply Qcplus_pos_nonneg; [|done]).
  - do 3 (apply Qcplus_pos_nonneg; [|done]). by apply Qcplus_nonneg_pos.
  - do 2 (apply Qcplus_pos_nonneg; [|done]).
    apply Qcplus_nonneg_pos; [|done]. by apply Qcplus_nonneg_nonneg.
  - apply Qcplus_pos_nonneg; [|done]. apply Qcplus_nonneg_pos; [|done].
    apply Qcplus_nonneg_nonneg; [|done]. by apply Qcplus_nonneg_nonneg.
  - apply Qcplus_nonneg_pos; [|done].
    do 2 (apply Qcplus_nonneg_nonneg; [|done]). by apply Qcplus_nonneg_nonneg.
Qed.

Lemma overhead_when_total_is_zero t :
  total_ms t = 0%Qc → phases_nonneg t → overhead_ms t = 0%Qc.
Proof.
  intros H Hn. unfold overhead_ms, py_max. rewrite H.
  destruct (Qclt_le_dec _ _) as [Hlt|]; [|done].
  apply phase_sum_nonneg in Hn. exfalso.
  apply (Qclt_not_le _ _ Hlt). unfold Qcminus. rewrite Qcplus_0_l.
  apply Qcopp_le_compat in Hn. exact Hn.
Qed.

Lemma demo_world_monotonic : monotonic demo_world.
Proof.
  intros n. cbn. unfold demo_clock, Qcle. cbn. rewrite !Qred_correct.
  unfold Qle. cbn. lia.
Qed.

(** ** Redirect folding *)

(** C1, as stated, fails: on the redirect from [/old] to [/new], where
    every measured phase lasts one millisecond, the folded total is the
    sum of the two hops' totals (8 ms), and not the original hop's
    resolution + connect + handshake + total plus the final hop's total
    (10 ms). *)
Lemma redirect_total_counts_setup_once :
  ∃ t n rt n' r,
    first_hop demo_world 0 "http://example.com/old" "GET" None None demo_timeout
      = (Returns t, n)
    ∧ is_redirect (status_code t) = true ∧ location_of t = "/new"
    ∧ trace_request demo_world n "http://example.com/new" "GET" None None
        demo_timeout true 9 = (Returns rt, n')
    ∧ trace_request demo_world 0 "http://example.com/old" "GET" None None
        demo_timeout true 10 = (Returns r, n')
    ∧ total_ms r ≠ (dns_ms t + tcp_connect_ms t + tls_handshake_ms t + total_ms t
                    + total_ms rt)%Qc.
Proof.
  eexists _, _, _, _, _. split_and!.
  - vm_compute. reflexivity.
  - vm_compute. reflexivity.
  - vm_compute. reflexivity.
  - vm_compute. reflexivity.
  - vm_compute. reflexivity.
  - intros H. apply (f_equal this) in H. vm_compute in H. discriminate H.
Qed.

(** C1, amended: when a probe with redirects enabled gets a redirect
    status with a non-empty location and has budget left, and the
    follow-up call returns a record, the result is that record with the
    original hop's resolution, connect and handshake durations and its
    total added to the follow-up's, processing and transfer left as the
    follow-up measured them, and the requested URL put back. *)
Theorem redirect_fold w start u m hs body timeout mr parsed pp t n rt n' :
  urlparse w u = Returns parsed → port parsed = Returns pp →
  first_hop w start u m hs body timeout = (Returns t, n) →
  is_redirect (status_code t) = true → location_of t ≠ "" → 0 < mr →
  trace_request w n (redirect_target (scheme parsed) (hostname parsed) (location_of t))
    m hs body timeout true (mr - 1) = (Returns rt, n') →
  ∃ r,
    trace_request w start u m hs body timeout true mr = (Returns r, n')
    ∧ total_ms r = (total_ms rt + total_ms t)%Qc
    ∧ dns_ms r = (dns_ms rt + dns_ms t)%Qc
    ∧ tcp_connect_ms r = (tcp_connect_ms rt + tcp_connect_ms t)%Qc
    ∧ tls_handshake_ms r = (tls_handshake_ms rt + tls_handshake_ms t)%Qc
    ∧ server_processing_ms r = server_processing_ms rt
    ∧ content_transfer_ms r = content_transfer_ms rt
    ∧ url r = u.
Proof.
  intros Hp Hpp Hh Hr Hl Hmr Hf.
  destruct (trace_request_step w start u m hs body timeout true mr parsed pp Hp Hpp)
    as (t' & n0 & Hh' & Heq).
  rewrite Hh in Hh'. injection Hh' as <- <-.
  assert (wants_redirect true mr t = true) as Hw.
  { unfold wants_redirect.
    rewrite (first_hop_status_no_error _ _ _ _ _ _ _ _ _ Hh Hr), Hr.
    rewrite !bool_decide_true by done. by rewrite bool_decide_false by done. }
  rewrite Hw, Hf in Heq. eexists. split; [exact Heq|].
  unfold fold_redirect. by destruct rt, t.
Qed.

Lemma redirect_fold_witness :
  ∃ r, trace_request demo_world 0 "http://example.com/old" "GET" None None
         demo_timeout true 10 = (Returns r, 16%nat)
       ∧ url r = "http://example.com/old".
Proof.
  edestruct (redirect_fold demo_world 0 "http://example.com/old" "GET" None None
               demo_timeout 10
               (parsed "http" (Some "example.com") (Returns None) "/old") None)
    as (r & Hr & _ & _ & _ & _ & _ & _ & Hu);
    [ reflexivity | reflexivity | vm_compute; reflexivity | vm_compute; reflexivity
    | vm_compute; discriminate | lia | vm_compute; reflexivity | ].
  exists r. split; [exact Hr | exact Hu].
Defined.

(** ** Totals *)

(** C6: the record of a successful probe that made no follow-up call has
    a total equal to the sum of its five phase durations (exactly, the
    same expression computes both), and its overhead is zero. *)
Theorem total_is_sum_of_phases w start u m hs body timeout fr mr t n :
  attempts_redirect w start u m hs body timeout fr mr = false →
  trace_request w start u m hs body timeout fr mr = (Returns t, n) →
  error t = None →
  total_ms t = (dns_ms t + tcp_connect_ms t + tls_handshake_ms t
                + server_processing_ms t + content_transfer_ms t)%Qc
  ∧ overhead_ms t = 0%Qc.
Proof.
  intros Ha Ht He.
  destruct (trace_request_returns_parsed _ _ _ _ _ _ _ _ _ _ _ Ht)
    as (parsed & pp & Hp & Hpp).
  destruct (trace_request_step w start u m hs body timeout fr mr parsed pp Hp Hpp)
    as (t' & n' & Hh & Heq).
  unfold attempts_redirect in Ha. rewrite Hh in Ha. rewrite Ha, Ht in Heq.
  injection Heq as -> ->.
  destruct (first_hop_spec _ _ _ _ _ _ _ _ _ Hh) as (_ & Hsum & _).
  specialize (Hsum He). split; [exact Hsum|].
  by apply overhead_when_total_is_sum.
Qed.

Lemma total_is_sum_of_phases_witness :
  ∃ t, trace_request demo_world 0 "http://example.com/" "GET" None None
         demo_timeout true 10 = (Returns t, 8%nat)
       ∧ total_ms t = phase_sum t ∧ overhead_ms t = 0%Qc.
Proof.
  eexists. split; [vm_compute; reflexivity|].
  eapply (total_is_sum_of_phases demo_world 0 "http://example.com/" "GET" None None
            demo_timeout true 10 _ 8%nat);
    [vm_compute; reflexivity | vm_compute; reflexivity | reflexivity].
Defined.

(** C10, as stated, fails: the redirect of [/bad] names a location whose
    port is out of range; the follow-up call raises before any network
    activity, the caller's [except] records the error in the record of
    its own hop, and that record keeps the total assigned before the
    redirect block (4 ms). No redirect was followed: the clock was not
    read again and the record is the first hop's, status 301. *)
Lemma failed_follow_up_keeps_total :
  ∃ t1 t n,
    first_hop demo_world 0 "http://example.com/bad" "GET" None None demo_timeout
      = (Returns t1, n)
    ∧ trace_request demo_world 0 "http://example.com/bad" "GET" None None
        demo_timeout true 10 = (Returns t, n)
    ∧ t = set_error (Some "Request failed: Port out of range 0-65535") t1
    ∧ status_code t = 301
    ∧ total_ms t ≠ 0%Qc.
Proof.
  eexists _, _, _. split_and!.
  - vm_compute. reflexivity.
  - vm_compute. reflexivity.
  - vm_compute. reflexivity.
  - vm_compute. reflexivity.
  - intros H. apply (f_equal this) in H. vm_compute in H. discriminate H.
Qed.

(** C10, amended: when the hop of a probe itself fails (in one of its
    phases, or on an empty resolution), the probe returns the record of
    that hop whatever the redirect settings, with a total of exactly 0;
    with a clock that never goes back its overhead is 0 and its total is
    below its phase sum as soon as one phase has a positive duration. *)
Theorem failed_hop_total_zero w start u m hs body timeout fr mr t n :
  monotonic w →
  first_hop w start u m hs body timeout = (Returns t, n) →
  error t ≠ None →
  trace_request w start u m hs body timeout fr mr = (Returns t, n)
  ∧ total_ms t = 0%Qc
  ∧ overhead_ms t = 0%Qc
  ∧ ((0 < dns_ms t ∨ 0 < tcp_connect_ms t ∨ 0 < tls_handshake_ms t
      ∨ 0 < server_processing_ms t ∨ 0 < content_transfer_ms t)%Qc →
     (total_ms t < phase_sum t)%Qc).
Proof.
  intros Hw Hh He.
  destruct (first_hop_spec _ _ _ _ _ _ _ _ _ Hh) as (_ & _ & Hz & Hn).
  destruct (Hz He) as [Hz' _]. specialize (Hn Hw).
  assert (∃ parsed pp, urlparse w u = Returns parsed ∧ port parsed = Returns pp)
    as (parsed & pp & Hp & Hpp).
  { revert Hh. unfold first_hop, probe.
    destruct (urlparse w u) as [parsed|e]; [|done].
    destruct (port parsed) as [pp|e] eqn:Hpp; [|done]. eauto. }
  destruct (trace_request_step w start u m hs body timeout fr mr parsed pp Hp Hpp)
    as (t' & n' & Hh' & Heq).
  rewrite Hh in Hh'. injection Hh' as <- <-.
  assert (wants_redirect fr mr t = false) as Hnw.
  { unfold wants_redirect. by rewrite bool_decide_false by done. }
  rewrite Hnw in Heq. split_and!; [done | done | by apply overhead_when_total_is_zero |].
  intros Hpos. rewrite Hz'. by apply phase_sum_pos.
Qed.

Lemma failed_hop_total_zero_witness :
  ∃ t, trace_request demo_world 0 "http://example.com/down" "GET" None None
         demo_timeout true 10 = (Returns t, 3%nat)
       ∧ total_ms t = 0%Qc ∧ (total_ms t < phase_sum t)%Qc.
Proof.
  edestruct (failed_hop_total_zero demo_world 0 "http://example.com/down" "GET"
               None None demo_timeout true 10) as (Ht & Hz & _ & Hlt);
    [exact demo_world_monotonic | vm_compute; reflexivity | vm_compute; discriminate |].
  eexists. split; [exact Ht|]. split; [exact Hz|].
  apply Hlt. left. vm_compute. reflexivity.
Defined.

(** ** The target of the follow-up *)

(** C8, as stated, fails: the redirect of [/rel] carries the relative
    location [next]; the follow-up targets the string [next] itself, not
    a URL on [http://example.com]. That string has no host, so the
    follow-up goes to the local machine, port 80. *)
Lemma relative_location_not_resolved :
  ∃ t n r n',
    first_hop demo_world 0 "http://example.com/rel" "GET" None None demo_timeout
      = (Returns t, n)
    ∧ wants_redirect true 10 t = true
    ∧ location_of t = "next"
    ∧ redirect_target "http" (Some "example.com") (location_of t) = "next"
    ∧ str_startswith "http://example.com"
        (redirect_target "http" (Some "example.com") (location_of t)) = false
    ∧ trace_request demo_world 0 "http://example.com/rel" "GET" None None
        demo_timeout true 10 = (Returns r, n')
    ∧ error r = Some "Connection refused by None:80".
Proof.
  eexists _, _, _, _. split_and!; vm_compute; reflexivity.
Qed.

(** C8, amended: the follow-up of a redirect targets the location
    prefixed with the scheme and the host name of the request when the
    location starts with [/], and the location as it stands otherwise. *)
Theorem follow_up_target w start u m hs body timeout mr parsed pp t n :
  urlparse w u = Returns parsed → port parsed = Returns pp →
  first_hop w start u m hs body timeout = (Returns t, n) →
  wants_redirect true mr t = true →
  ∃ target,
    target = (if str_startswith "/" (location_of t)
              then scheme parsed +:+ "://" +:+ fmt_host (hostname parsed)
                   +:+ location_of t
              else location_of t)
    ∧ trace_request w start u m hs body timeout true mr =
      match trace_request w n target m hs body timeout true (mr - 1) with
      | (Returns rt, n') => (Returns (fold_redirect u t rt), n')
      | (Raises e, n') =>
          (Returns (set_error
             (Some (handler w (hostname parsed)
                      (port_or_default pp (bool_decide (scheme parsed = "https")))
                      timeout e)) t), n')
      end.
Proof.
  intros Hp Hpp Hh Hw.
  destruct (trace_request_step w start u m hs body timeout true mr parsed pp Hp Hpp)
    as (t' & n0 & Hh' & Heq).
  rewrite Hh in Hh'. injection Hh' as <- <-. rewrite Hw in Heq.
  eexists. split; [reflexivity|]. exact Heq.
Qed.

Lemma follow_up_target_witness :
  ∃ t r,
    first_hop demo_world 0 "http://example.com/old" "GET" None None demo_timeout
      = (Returns t, 8%nat)
    ∧ location_of t = "/new"
    ∧ trace_request demo_world 8 "http://example.com/new" "GET" None None
        demo_timeout true 9 = (Returns r, 16%nat)
    ∧ trace_request demo_world 0 "http://example.com/old" "GET" None None
        demo_timeout true 10 = (Returns (fold_redirect "http://example.com/old" t r),
                                16%nat).
Proof.
  edestruct (follow_up_target demo_world 0 "http://example.com/old" "GET" None None
               demo_timeout 10
               (parsed "http" (Some "example.com") (Returns None) "/old") None)
    as (target & Htarget & Heq);
    [reflexivity | reflexivity | vm_compute; reflexivity | vm_compute; reflexivity |].
  eexists _, _. split; [vm_compute; reflexivity|].
  split; [vm_compute; reflexivity|].
  assert (target = "http://example.com/new") as -> by (rewrite Htarget; reflexivity).
  split; [vm_compute; reflexivity|].
  rewrite Heq. vm_compute. reflexivity.
Defined.

(** ** Exceptions that leave the tracer *)

(** C2 (a defect of the code): a URL whose port is out of range makes
    [parsed.port] raise [ValueError] on line 100, before the [try]; the
    exception leaves [trace_request]. *)
Theorem port_error_escapes :
  (∀ w start u m hs body timeout fr mr parsed e,
     urlparse w u = Returns parsed → port parsed = Raises e →
     trace_request w start u m hs body timeout fr mr = (Raises e, start))
  ∧ trace_request demo_world 0 "http://example.com:99999/" "GET" None None
      demo_timeout true 10
    = (Raises (ValueError "Port out of range 0-65535"), 0%nat).
Proof.
  split; [|reflexivity].
  intros w start u m hs body timeout fr mr parsed e Hp Hpp.
  apply trace_request_raises. split; [done|]. right. by exists parsed.
Qed.

(** The same failure in a follow-up call is caught by the caller. In
    general [trace_request] raises exactly what [urlparse] or [.port]
    raise for the requested URL, and otherwise returns a record. *)
Lemma trace_request_returns w start u m hs body timeout fr mr parsed pp :
  urlparse w u = Returns parsed → port parsed = Returns pp →
  ∃ t n, trace_request w start u m hs body timeout fr mr = (Returns t, n).
Proof.
  intros Hp Hpp.
  destruct (trace_request w start u m hs body timeout fr mr) as [[t|e] n] eqn:E;
    [eauto|].
  apply trace_request_raises in E. destruct E as (_ & [E|(p' & E1 & E2)]); congruence.
Qed.

(** ** The transfer loop *)

Lemma scan_content_length_no_timeout bsf lines m :
  scan_content_length bsf lines ≠ Raises (socket_timeout m).
Proof.
  induction lines as [|line rest IH]; cbn; [done|].
  repeat case_match; done.
Qed.

Lemma after_read_no_timeout d m : after_read d ≠ Raises (socket_timeout m).
Proof.
  unfold after_read. destruct (find _ _); [|done].
  destruct (scan_content_length _ _) as [[]|e] eqn:E; try done.
  - destruct (contains _ _); [|done]. by destruct (endswith _ _).
  - intros [= ->]. by eapply scan_content_length_no_timeout.
Qed.

(** The loop makes a read before it looks at the buffer, whatever the
    buffer holds. *)
Lemma read_loop_reads_first reads d : (1 ≤ (read_loop reads d).2)%nat.
Proof.
  destruct reads as [|[[|b chunk]|e] reads']; cbn; [lia | lia | | destruct e; cbn; lia].
  destruct (after_read _) as [[]|e]; cbn; [lia | | destruct e; cbn; lia].
  destruct (read_loop _ _). cbn. lia.
Qed.

(** A read after which the check finds the response complete is the
    last one. *)
Lemma read_loop_stops chunk reads d :
  chunk ≠ [] → after_read (d ++ chunk) = Returns Break →
  read_loop (Returns chunk :: reads) d = (Returns (d ++ chunk), 1%nat).
Proof. intros Hc Hb. destruct chunk; [done|]. cbn. by rewrite Hb. Qed.

(** A read after which the check does not find it complete is followed
    by another. *)
Lemma read_loop_continues chunk reads d :
  chunk ≠ [] → after_read (d ++ chunk) = Returns Continue →
  read_loop (Returns chunk :: reads) d =
  ((read_loop reads (d ++ chunk)).1, S (read_loop reads (d ++ chunk)).2).
Proof.
  intros Hc Hb. destruct chunk; [done|]. cbn. rewrite Hb.
  by destruct (read_loop _ _).
Qed.

(** How the loop can end with a buffer: on a silent read, or by the
    check after a read. *)
Lemma read_loop_exit reads d d' k :
  read_loop reads d = (Returns d', k) →
  ∃ j, k = S j ∧ (silent (reads !! j) ∨ after_read d' = Returns Break).
Proof.
  revert d k. induction reads as [|r reads' IH]; intros d k; cbn.
  - intros [= <- <-]. exists 0%nat. split; [done|]. by left.
  - destruct r as [[|b chunk]|e].
    + intros [= <- <-]. exists 0%nat. split; [done|]. by left.
    + destruct (after_read (d ++ b :: chunk)) as [[]|e] eqn:E.
      * intros [= <- <-]. exists 0%nat. split; [done|]. by right.
      * destruct (read_loop reads' (d ++ b :: chunk)) as [r n] eqn:El.
        intros [= -> <-]. destruct (IH _ _ El) as (j & -> & Hj).
        exists (S j). split; [done|]. exact Hj.
      * destruct e; try done. by apply after_read_no_timeout in E.
    + destruct e; try done. intros [= <- <-]. exists 0%nat. split; [done|]. by left.
Qed.

Lemma scan_no_content_length bsf lines :
  Forall (fun line => startswith CONTENT_LENGTH line = false) lines →
  scan_content_length bsf lines = Returns ForElse.
Proof.
  induction 1 as [|line lines Hl _ IH]; [done|].
  cbn [scan_content_length]. by rewrite Hl.
Qed.

Lemma scan_skips bsf pre rest :
  Forall (fun line => startswith CONTENT_LENGTH line = false) pre →
  scan_content_length bsf (pre ++ rest) = scan_content_length bsf rest.
Proof.
  induction 1 as [|line pre Hl _ IH]; [done|].
  cbn [app scan_content_length]. by rewrite Hl.
Qed.

(** On a response with one [content-length] line that declares [n]
    bytes, and no chunked encoding, the check after a read says
    [Break] exactly when the body received so far has reached [n]. *)
Lemma content_length_check d p pre line k v n post :
  find CRLFCRLF d = Some p →
  split_crlf (lower (take p d)) = pre ++ line :: post →
  Forall (fun line => startswith CONTENT_LENGTH line = false) pre →
  Forall (fun line => startswith CONTENT_LENGTH line = false) post →
  startswith CONTENT_LENGTH line = true →
  split1 COLON line = Some (k, v) → str_int 10 (str_strip v) = Some n →
  contains TE_CHUNKED (lower (take p d)) = false →
  after_read d =
  Returns (if n <=? Z.of_nat (length d) - Z.of_nat p - 4 then Break else Continue).
Proof.
  intros Hf Hs Hpre Hpost Hl Hk Hn Hc. unfold after_read.
  rewrite Hf, Hs, (scan_skips _ _ _ Hpre). cbn [scan_content_length].
  rewrite Hl, Hk, Hn. destruct (n <=? _); [done|].
  by rewrite (scan_no_content_length _ _ Hpost), Hc.
Qed.

(** C3 (a defect of the code): the whole response, headers and the two
    bytes that [Content-Length] declares, arrives in the first read. The
    check of the loop finds this buffer complete, but the loop runs it
    only after a read of its own: it calls [recv] once more, and that
    call brings nothing and ends by the timeout. *)
Theorem complete_first_read_still_reads :
  after_read demo_ok = Returns Break
  ∧ x_recv_first (demo_exchange 0 (Some "example.com") 80 false
                    (raw_request "GET" "/" (Some "example.com") None None))
    = Returns demo_ok
  ∧ read_loop [] demo_ok = (Returns demo_ok, 1%nat)
  ∧ ∀ reads, (1 ≤ (read_loop reads demo_ok).2)%nat.
Proof.
  split_and!; [by vm_compute | by vm_compute | reflexivity |].
  intros reads. apply read_loop_reads_first.
Qed.

(** ** Chunked bodies *)

Lemma cons_hd_not_nil b ps : cons_hd b ps ≠ [].
Proof. by destruct ps. Qed.

Lemma split_crlf_not_nil l : split_crlf l ≠ [].
Proof.
  destruct l as [|b [|c t]]; [done | done |].
  change (split_crlf (b :: c :: t))
    with (if bool_decide (b = CR) && bool_decide (c = LF)
          then [] :: split_crlf t
          else cons_hd b (split_crlf (c :: t))).
  destruct (_ && _); [done|]. apply cons_hd_not_nil.
Qed.

Lemma cons_hd_singleton b ps l : cons_hd b ps = [b :: l] → ps ≠ [] → ps = [l].
Proof. destruct ps as [|p ps]; [done|]. cbn. by intros [= -> ->]. Qed.

(** A part without CR LF, then CR LF: the split yields that part first. *)
Lemma split_crlf_app a r :
  crlf_free a → split_crlf (a ++ CRLF ++ r) = a :: split_crlf r.
Proof.
  unfold crlf_free. induction a as [|b a IH]; intros Hfree.
  - reflexivity.
  - destruct a as [|c a].
    + cbn. rewrite (bool_decide_false (CR = LF)) by done.
      by rewrite andb_false_r.
    + change (split_crlf ((b :: c :: a) ++ CRLF ++ r))
        with (if bool_decide (b = CR) && bool_decide (c = LF)
              then [] :: split_crlf (a ++ CRLF ++ r)
              else cons_hd b (split_crlf ((c :: a) ++ CRLF ++ r))).
      change (split_crlf (b :: c :: a))
        with (if bool_decide (b = CR) && bool_decide (c = LF)
              then [] :: split_crlf a
              else cons_hd b (split_crlf (c :: a))) in Hfree.
      destruct (bool_decide (b = CR) && bool_decide (c = LF)); [done|].
      apply cons_hd_singleton in Hfree; [|apply split_crlf_not_nil].
      by rewrite (IH Hfree).
Qed.

Lemma int_nil base : int base [] = None.
Proof. reflexivity. Qed.

(** One plain chunk in front: its declared length is added and its
    payload skipped. *)
Lemma chunked_total_chunk sl payload parts total n :
  declared_length sl = Some n → n ≠ 0 →
  chunked_total (sl :: payload :: parts) total = chunked_total parts (total + n).
Proof.
  unfold declared_length. intros Hn Hnz.
  change (chunked_total (sl :: payload :: parts) total)
    with (match strip sl with
          | [] => chunked_total (payload :: parts) total
          | b :: l =>
              match int 16 (b :: l) with
              | Some chunk_size =>
                  if chunk_size =? 0 then total
                  else chunked_total parts (total + chunk_size)
              | None => chunked_total (payload :: parts)
                          (total + Z.of_nat (length sl))
              end
          end).
  destruct (strip sl) as [|b l]; [by rewrite int_nil in Hn|].
  rewrite Hn. by rewrite (proj2 (Z.eqb_neq n 0) Hnz).
Qed.

Lemma chunked_total_body chunks total :
  Forall plain_chunk chunks →
  chunked_total (split_crlf (chunked_body chunks)) total
  = total + declared_total chunks.
Proof.
  intros Hall. revert total.
  induction Hall as [|[sl payload] chunks (Hsl & Hp & n & Hn & Hnz) _ IH]; intros total.
  - vm_compute. destruct total; reflexivity.
  - unfold chunked_body. cbn [fmap list_fmap concat fst snd].
    rewrite <- !app_assoc. rewrite split_crlf_app by done.
    rewrite split_crlf_app by done.
    erewrite chunked_total_chunk by done.
    fold (chunked_body chunks). rewrite IH.
    change (declared_total ((sl, payload) :: chunks))
      with (default 0 (declared_length sl) + declared_total chunks).
    cbn in Hn. rewrite Hn. cbn. lia.
Qed.

(** For a body of plain chunks, [_parse_chunked_size] is the sum of the
    declared lengths. *)
Lemma parse_chunked_size_plain chunks :
  Forall plain_chunk chunks →
  _parse_chunked_size (chunked_body chunks) = declared_total chunks.
Proof. intros H. unfold _parse_chunked_size. by rewrite chunked_total_body. Qed.

(** The size that [parse_response] reports for a response that it takes
    as chunked. *)
Lemma parse_response_chunked d t p :
  find CRLFCRLF d = Some p → headers_received t = ∅ →
  is_chunked (headers_received (parse_response d t)) = true →
  response_size (parse_response d t) = _parse_chunked_size (drop (p + 4) d).
Proof.
  intros Hf Ht. unfold parse_response. rewrite Hf.
  destruct (parse_status _) as [sc|e].
  - destruct t. cbn in Ht. subst.
    destruct sc; cbn;
      destruct (is_chunked (fold_left add_header _ ∅)) eqn:E; cbn;
      by rewrite ?E.
  - destruct t. cbn in Ht. subst. cbn. by vm_compute.
Qed.

(** Without a [content-length] line, the check ends the loop only on a
    buffer that ends with the terminating chunk. *)
Lemma break_needs_last_chunk d :
  no_content_length d → after_read d = Returns Break →
  endswith LAST_CHUNK d = true.
Proof.
  unfold no_content_length, header_lines, after_read.
  destruct (find CRLFCRLF d) as [p|]; [|done].
  intros Hno. rewrite (scan_no_content_length _ _ Hno).
  destruct (contains _ _); [|done]. by destruct (endswith _ _).
Qed.

(** C4, as stated, fails: one chunk of six bytes whose payload holds a
    line break, [ab CR LF cd]. The declared lengths sum to 6; the size
    reported is 211, because the second line of the payload is read as a
    size line ([cd] is 205 in base 16). *)
Lemma chunk_payload_with_crlf_miscounted :
  let chunks := [(encode "6", encode "ab" ++ CRLF ++ encode "cd")] in
  declared_total chunks = 6
  ∧ Z.of_nat (length (encode "ab" ++ CRLF ++ encode "cd")) = 6
  ∧ _parse_chunked_size (chunked_body chunks) = 211
  ∧ response_size
      (parse_response (demo_chunked_head ++ chunked_body chunks)
         (initial_timing "http://example.com/" "GET" None)) = 211
  ∧ response_size
      (parse_response (demo_chunked_head ++ chunked_body chunks)
         (initial_timing "http://example.com/" "GET" None))
    ≠ declared_total chunks.
Proof. cbv zeta. split_and!; by vm_compute. Qed.

(** C4, amended. First, on a response without a [content-length] line
    the loop ends with a buffer either on a read that brings nothing
    (end of stream or timeout) or with the terminating chunk [0 CR LF CR
    LF] at the end of the buffer. Second, for a body made of chunks
    whose size line is a bare number in base 16 and whose payload has no
    CR LF, the size reported for the response is the sum of the declared
    lengths; it depends on the bytes received, not on the reads that
    brought them. *)
Theorem chunked_framing_and_size :
  (∀ reads d d' k,
     read_loop reads d = (Returns d', k) → no_content_length d' →
     ∃ j, k = S j ∧ (silent (reads !! j) ∨ endswith LAST_CHUNK d' = true))
  ∧ (∀ chunks d p t,
       Forall plain_chunk chunks →
       find CRLFCRLF d = Some p → drop (p + 4) d = chunked_body chunks →
       headers_received t = ∅ →
       is_chunked (headers_received (parse_response d t)) = true →
       response_size (parse_response d t) = declared_total chunks).
Proof.
  split.
  - intros reads d d' k Hl Hno.
    destruct (read_loop_exit _ _ _ _ Hl) as (j & -> & [Hs|Hb]).
    + exists j. split; [done|]. by left.
    + exists j. split; [done|]. right. by apply break_needs_last_chunk.
  - intros chunks d p t Hall Hf Hd Ht Hc.
    rewrite (parse_response_chunked d t p Hf Ht Hc), Hd.
    by apply parse_chunked_size_plain.
Qed.

Lemma plain_chunk_abc : plain_chunk (encode "3", encode "abc").
Proof.
  split_and!; [reflexivity | reflexivity |]. exists 3. by split.
Qed.

Lemma chunked_framing_and_size_witness :
  let body := chunked_body [(encode "3", encode "abc")] in
  read_loop [Returns body] demo_chunked_head
    = (Returns (demo_chunked_head ++ body), 1%nat)
  ∧ endswith LAST_CHUNK (demo_chunked_head ++ body) = true
  ∧ response_size
      (parse_response (demo_chunked_head ++ body)
         (initial_timing "http://example.com/" "GET" None)) = 3.
Proof.
  cbv zeta. split; [by vm_compute|]. split.
  - destruct (proj1 chunked_framing_and_size
                [Returns (chunked_body [(encode "3", encode "abc")])]
                demo_chunked_head
                (demo_chunked_head ++ chunked_body [(encode "3", encode "abc")])
                1%nat) as (j & Hj & [Hs|He]).
    + by vm_compute.
    + unfold no_content_length. vm_compute. repeat constructor.
    + injection Hj as <-. vm_compute in Hs. destruct Hs.
    + exact He.
  - apply (proj2 chunked_framing_and_size [(encode "3", encode "abc")]
             (demo_chunked_head ++ chunked_body [(encode "3", encode "abc")])
             43%nat).
    + constructor; [apply plain_chunk_abc | constructor].
    + by vm_compute.
    + by vm_compute.
    + reflexivity.
    + by vm_compute.
Defined.

(** ** The averager *)

Lemma py_sum_foldr xs : py_sum xs = foldr Qcplus 0%Qc xs.
Proof.
  assert (∀ a, fold_left Qcplus xs a = (a + foldr Qcplus 0 xs)%Qc) as H.
  { induction xs as [|x xs IH]; intros a; cbn; [ring|]. rewrite IH. ring. }
  unfold py_sum. rewrite H. ring.
Qed.

Lemma last_List_last {A} (l : list A) (d : A) :
  l ≠ [] → last l = Some (List.last l d).
Proof.
  induction l as [|x [|y l] IH]; intros Hl; [done | done |].
  change (last (x :: y :: l)) with (last (y :: l)).
  change (List.last (x :: y :: l) d) with (List.last (y :: l) d).
  by apply IH.
Qed.

(** C7: for a non-empty list of records, the six durations of the
    result are the arithmetic means over the list; URL, method, status
    code, peer address and secure-channel version are those of the first
    record and the response size that of the last. For the empty list the
    result is the record with every field at its default, all numbers
    zero. *)
Theorem average_timing_means :
  (∀ results σ first rest,
     Forall2 (fun r t => σ !! r = Some t) results (first :: rest) →
     let rs := first :: rest in
     ∃ r σ' avg last_sample,
       average_timing results σ = Some (r, σ') ∧ σ' !! r = Some avg
       ∧ last rs = Some last_sample
       ∧ dns_ms avg = arith_mean (dns_ms <$> rs)
       ∧ tcp_connect_ms avg = arith_mean (tcp_connect_ms <$> rs)
       ∧ tls_handshake_ms avg = arith_mean (tls_handshake_ms <$> rs)
       ∧ server_processing_ms avg = arith_mean (server_processing_ms <$> rs)
       ∧ content_transfer_ms avg = arith_mean (content_transfer_ms <$> rs)
       ∧ total_ms avg = arith_mean (total_ms <$> rs)
       ∧ url avg = url first ∧ method avg = method first
       ∧ status_code avg = status_code first
       ∧ ip_address avg = ip_address first
       ∧ tls_version avg = tls_version first
       ∧ response_size avg = response_size last_sample)
  ∧ (∀ σ, ∃ r σ',
       average_timing [] σ = Some (r, σ')
       ∧ σ' !! r = Some TimingBreakdown_default
       ∧ total_ms TimingBreakdown_default = 0%Qc
       ∧ phase_sum TimingBreakdown_default = 0%Qc).
Proof.
  split.
  - intros results σ first rest Hrs rs.
    apply mapM_Some_2 in Hrs. unfold average_timing, new. rewrite Hrs.
    cbn [mbind option_bind].
    eexists _, _, _, (List.last rs first). split; [reflexivity|].
    split; [apply lookup_insert_eq|].
    split; [by apply last_List_last|].
    cbn [dns_ms tcp_connect_ms tls_handshake_ms server_processing_ms
         content_transfer_ms total_ms url method status_code ip_address
         tls_version response_size].
    unfold arith_mean. rewrite !py_sum_foldr, !length_fmap. by split_and!.
  - intros σ. unfold average_timing, new. cbn.
    eexists _, _. split; [reflexivity|].
    split; [apply lookup_insert_eq|]. by split.
Qed.

Lemma average_timing_means_witness :
  ∃ r σ' avg,
    average_timing [1%nat; 0%nat] demo_store = Some (r, σ')
    ∧ σ' !! r = Some avg
    ∧ total_ms avg = Q2Qc (inject_Z 15)
    ∧ response_size avg = 7
    ∧ ip_address avg = "93.184.216.34".
Proof.
  destruct (proj1 average_timing_means [1%nat; 0%nat] demo_store
              (demo_sample 10 2 "93.184.216.34")
              [demo_sample 20 7 "93.184.216.35"])
    as (r & σ' & avg & ls & Heq & Hl & Hlast & _ & _ & _ & _ & _ & Ht
        & _ & _ & _ & Hip & _ & Hsz).
  - repeat constructor.
  - exists r, σ', avg. split; [exact Heq|]. split; [exact Hl|].
    injection Hlast as <-. split; [|split; [exact Hsz | exact Hip]].
    rewrite Ht. apply Qc_is_canon. reflexivity.
Defined.

(** C9: [average_timing] leaves every object of the store as it was, in
    particular every record of its input, and its result is an object
    that did not exist before, so it is none of the inputs. *)
Theorem average_timing_frame results σ r σ' :
  average_timing results σ = Some (r, σ') →
  (∀ l, l ∈ dom σ → σ' !! l = σ !! l)
  ∧ Forall (fun l => is_Some (σ !! l) ∧ σ' !! l = σ !! l) results
  ∧ (r ∉ dom σ)
  ∧ (r ∉ results)
  ∧ is_Some (σ' !! r).
Proof.
  unfold average_timing, new. intros H.
  destruct (mapM (λ r, σ !! r) results) as [rs|] eqn:Hrs; [|done].
  cbn [mbind option_bind] in H.
  assert (r = fresh (dom σ) ∧ ∃ avg, σ' = <[r := avg]> σ) as (-> & avg & ->).
  { destruct rs; injection H as <- <-; eauto. }
  clear H. pose proof (is_fresh (dom σ)) as Hfresh.
  assert (∀ l, l ∈ dom σ → <[fresh (dom σ) := avg]> σ !! l = σ !! l) as Hframe.
  { intros l Hl. apply lookup_insert_ne. by intros <-. }
  assert (Forall (fun l => l ∈ dom σ) results) as Hdom.
  { apply mapM_Some_1 in Hrs. apply Forall_forall. intros l Hl.
    apply list_elem_of_lookup in Hl as [i Hi].
    destruct (Forall2_lookup_l _ _ _ _ _ Hrs Hi) as (t & _ & Ht).
    apply elem_of_dom. eauto. }
  split_and!; try done.
  - eapply Forall_impl; [exact Hdom|]. intros l Hl. split; [|by apply Hframe].
    by apply elem_of_dom.
  - intros Hin. apply Hfresh. by eapply Forall_forall in Hdom.
  - rewrite lookup_insert_eq. eauto.
Qed.

Lemma average_timing_frame_witness :
  ∃ r σ',
    average_timing [1%nat; 0%nat] demo_store = Some (r, σ')
    ∧ σ' !! 1%nat = demo_store !! 1%nat
    ∧ σ' !! 0%nat = demo_store !! 0%nat
    ∧ r ∉ [1%nat; 0%nat].
Proof.
  destruct (average_timing [1%nat; 0%nat] demo_store) as [[r σ']|] eqn:E;
    [|by vm_compute in E].
  destruct (average_timing_frame [1%nat; 0%nat] demo_store r σ' E)
    as (Hframe & _ & _ & Hr & _).
  exists r, σ'. split; [reflexivity|].
  split; [apply Hframe; by vm_compute|]. split; [apply Hframe; by vm_compute|].
  exact Hr.
Defined.

(** ** The concurrent runner *)

Lemma collect_raises completed results e :
  Raises e ∈ completed → ∃ e', collect completed results = Raises e'.
Proof.
  revert results. induction completed as [|[[u r]|e0] completed IH]; intros results Hin.
  - by apply elem_of_nil in Hin.
  - apply elem_of_cons in Hin as [[=]|Hin]. cbn [collect]. by apply IH.
  - cbn [collect]. eauto.
Qed.

Lemma omap_lookup_seq {A} (pre l : list A) :
  omap (fun j => (pre ++ l) !! j) (seq (length pre) (length l)) = l.
Proof.
  revert pre. induction l as [|x l IH]; intros pre; [done|].
  cbn [length seq].
  change (omap ?f (?j :: ?js))
    with (match f j with Some y => y :: omap f js | None => omap f js end).
  cbv beta. rewrite list_lookup_middle by done.
  f_equal. specialize (IH (pre ++ [x])).
  rewrite <- app_assoc, length_app in IH. cbn in IH.
  by replace (length pre + 1)%nat with (S (length pre)) in IH by lia.
Qed.

(** Whatever the order of completion, the loop sees every future once. *)
Lemma as_completed_permutation {A} (futures : list A) order :
  order ≡ₚ seq 0 (length futures) → as_completed futures order ≡ₚ futures.
Proof.
  intros H. unfold as_completed. rewrite H.
  pose proof (omap_lookup_seq [] futures) as E. cbn in E. by rewrite E.
Qed.

(** C5 (a defect of the code, the one of C2). When the probe of one task
    raises, [future.result()] raises it again in the runner, which ends
    without a mapping whatever the order in which the futures complete.
    So it is for two distinct targets, one repetition and five workers,
    when the second target has a port out of range: the record of the
    first target is lost with it. *)
Theorem runner_raises_on_port_error :
  (∀ worlds order urls k m hs body timeout mw j u i e,
     0 < mw → order ≡ₚ seq 0 (length (make_tasks urls k)) →
     make_tasks urls k !! j = Some (u, i) →
     (trace_request (worlds j) 0 u m hs body timeout true 10).1 = Raises e →
     ∃ e', trace_concurrent worlds order urls k m hs body timeout mw = Raises e')
  ∧ (let urls := ["http://example.com/"; "http://example.com:99999/"] in
     make_tasks urls 1 = [("http://example.com/", 0%nat);
                          ("http://example.com:99999/", 0%nat)]
     ∧ trace_concurrent (fun _ => demo_world) [0%nat; 1%nat] urls 1 "GET" None None
         demo_timeout 5 = Raises (ValueError "Port out of range 0-65535")
     ∧ trace_concurrent (fun _ => demo_world) [1%nat; 0%nat] urls 1 "GET" None None
         demo_timeout 5 = Raises (ValueError "Port out of range 0-65535")).
Proof.
  split; [|cbv zeta; split_and!; by vm_compute].
  intros worlds order urls k m hs body timeout mw j u i e Hmw Hperm Hj He.
  unfold trace_concurrent. rewrite (proj2 (Z.leb_gt mw 0)) by lia.
  set (futures := imap (submit worlds m hs body timeout) (make_tasks urls k)).
  apply (collect_raises _ _ e).
  rewrite as_completed_permutation
    by (subst futures; by rewrite length_imap).
  apply list_elem_of_lookup. exists j. subst futures.
  rewrite list_lookup_imap, Hj. cbn. unfold submit. cbn [fst]. by rewrite He.
Qed.

(** The runner, when no worker raises. *)

Lemma as_completed_fmap {A B} (f : A → B) (l : list A) order :
  as_completed (f <$> l) order = f <$> as_completed l order.
Proof.
  unfold as_completed. induction order as [|j order IH]; [done|].
  change (omap ?g (j :: order))
    with (match g j with Some y => y :: omap g order | None => omap g order end).
  cbv beta. rewrite list_lookup_fmap. destruct (l !! j); cbn; by rewrite IH.
Qed.

Lemma empty_results_fold urls (m : gmap string (list TimingBreakdown)) :
  let m' := fold_left (fun m url => <[url := []]> m) urls m in
  dom m' = list_to_set urls ∪ dom m
  ∧ (∀ u, u ∈ urls → m' !! u = Some [])
  ∧ (∀ u, u ∉ urls → m' !! u = m !! u).
Proof.
  revert m. induction urls as [|x urls IH]; intros m; cbn.
  - split_and!; [by rewrite union_empty_l_L | | done].
    intros u Hu. by apply elem_of_nil in Hu.
  - destruct (IH (<[x := []]> m)) as (Hd & Hin & Hout). split_and!.
    + rewrite Hd, dom_insert_L, union_assoc_L.
      by rewrite (union_comm_L _ {[x]}).
    + intros u Hu. destruct (decide (u ∈ urls)) as [|Hn]; [by apply Hin|].
      rewrite Hout by done. apply elem_of_cons in Hu as [->|]; [|done].
      apply lookup_insert_eq.
    + intros u Hu. apply not_elem_of_cons in Hu as [Hne Hu].
      rewrite Hout by done. by apply lookup_insert_ne.
Qed.

(** With every future returning, the loop appends to the list of a
    target once for each completed future of that target. *)
Lemma collect_returns (pairs : list (string * TimingBreakdown))
    (results : gmap string (list TimingBreakdown)) :
  ∃ results',
    collect (Returns <$> pairs) results = Returns results'
    ∧ dom results' = dom results
    ∧ ∀ u l, results !! u = Some l →
        ∃ l', results' !! u = Some l'
              ∧ length l' = (length l + length (filter (fun p => p.1 = u) pairs))%nat.
Proof.
  revert results. induction pairs as [|[u0 r0] pairs IH]; intros results.
  - exists results. split_and!; [done | done |]. intros u l Hl. exists l.
    split; [done|]. cbn. lia.
  - cbn [fmap list_fmap collect].
    destruct (IH (alter (fun l => l ++ [r0]) u0 results)) as (res' & Hc & Hd & Hl).
    exists res'. split_and!; [done | by rewrite Hd, dom_alter_L |].
    intros u l Hu. rewrite filter_cons. cbn [fst].
    destruct (decide (u0 = u)) as [->|Hne].
    + destruct (Hl u (l ++ [r0])) as (l' & Hl' & Hlen).
      { by rewrite lookup_alter_eq, Hu. }
      exists l'. split; [done|]. rewrite Hlen, length_app. cbn. lia.
    + destruct (Hl u l) as (l' & Hl' & Hlen).
      { by rewrite lookup_alter_ne. }
      exists l'. by split.
Qed.

Lemma filter_tasks_ne (x u : string) (l : list nat) :
  x ≠ u → filter (fun t : string * nat => t.1 = u) ((fun i => (x, i)) <$> l) = [].
Proof.
  intros Hne. induction l as [|i l IH]; [done|].
  cbn [fmap list_fmap]. by rewrite filter_cons_False by (cbn; congruence).
Qed.

Lemma filter_tasks_eq (u : string) (l : list nat) :
  filter (fun t : string * nat => t.1 = u) ((fun i => (u, i)) <$> l)
  = (fun i => (u, i)) <$> l.
Proof.
  induction l as [|i l IH]; [done|].
  cbn [fmap list_fmap]. rewrite filter_cons_True by done. by rewrite IH.
Qed.

Lemma count_tasks_absent urls k u :
  u ∉ urls → filter (fun t : string * nat => t.1 = u) (make_tasks urls k) = [].
Proof.
  unfold make_tasks. induction urls as [|x urls IH]; intros Hu; [done|].
  apply not_elem_of_cons in Hu as [Hne Hu].
  rewrite bind_cons, filter_app, (IH Hu), app_nil_r.
  by apply filter_tasks_ne.
Qed.

Lemma count_tasks urls k u :
  NoDup urls → u ∈ urls →
  length (filter (fun t : string * nat => t.1 = u) (make_tasks urls k)) = Z.to_nat k.
Proof.
  intros Hnd. induction Hnd as [|x urls Hx Hnd IH]; intros Hu;
    [by apply elem_of_nil in Hu|].
  unfold make_tasks. rewrite bind_cons, filter_app, length_app.
  fold (make_tasks urls k).
  apply elem_of_cons in Hu as [->|Hu].
  - rewrite (count_tasks_absent urls k x Hx), filter_tasks_eq.
    rewrite length_fmap, length_seq. cbn. lia.
  - rewrite (IH Hu), filter_tasks_ne; [done|]. by intros ->.
Qed.

Lemma filter_fst_fmap {A B} (u : string) (f : A → string) (g : B → string)
    (xs : list A) (ys : list B) :
  f <$> xs = g <$> ys →
  length (filter (fun x => f x = u) xs) = length (filter (fun y => g y = u) ys).
Proof.
  revert ys. induction xs as [|x xs IH]; intros [|y ys] H; try done.
  injection H as Hxy H. rewrite !filter_cons. rewrite Hxy.
  destruct (decide (g y = u)); cbn; by rewrite (IH ys H).
Qed.

Lemma futures_return worlds m hs body timeout (urls : list string)
    (tasks : list (string * nat)) (g : nat → nat) :
  Forall (fun t : string * nat => t.1 ∈ urls) tasks →
  (∀ j u, u ∈ urls →
     ∃ parsed pp, urlparse (worlds j) u = Returns parsed ∧ port parsed = Returns pp) →
  ∃ pairs,
    imap (fun j => submit worlds m hs body timeout (g j)) tasks = Returns <$> pairs
    ∧ pairs.*1 = tasks.*1.
Proof.
  intros Hin Hparse. revert g. induction Hin as [|t tasks Ht _ IH]; intros g.
  - by exists [].
  - cbn [imap]. destruct (IH (fun j => g (S j))) as (pairs & Hf & Hp).
    destruct (Hparse (g 0%nat) t.1 Ht) as (parsed & pp & H1 & H2).
    destruct (trace_request_returns (worlds (g 0%nat)) 0 t.1 m hs body timeout
                true 10 parsed pp H1 H2) as (r & n & Hr).
    exists ((t.1, r) :: pairs). split.
    + cbn [fmap list_fmap]. f_equal; [|exact Hf].
      unfold submit. by rewrite Hr.
    + cbn. by rewrite Hp.
Qed.

(** When the URL of every target parses, whatever the order in which
    the futures complete, [trace_concurrent] returns a mapping whose
    keys are the targets, each with exactly [count_per_url] records. *)
Lemma trace_concurrent_groups worlds order urls k m hs body timeout mw :
  NoDup urls → 0 < mw →
  order ≡ₚ seq 0 (length (make_tasks urls k)) →
  (∀ j u, u ∈ urls →
     ∃ parsed pp, urlparse (worlds j) u = Returns parsed ∧ port parsed = Returns pp) →
  ∃ res,
    trace_concurrent worlds order urls k m hs body timeout mw = Returns res
    ∧ dom res = list_to_set urls
    ∧ ∀ u, u ∈ urls → ∃ l, res !! u = Some l ∧ length l = Z.to_nat k.
Proof.
  intros Hnd Hmw Hperm Hparse. unfold trace_concurrent.
  rewrite (proj2 (Z.leb_gt mw 0)) by lia.
  set (tasks := make_tasks urls k) in *.
  set (futures := imap (submit worlds m hs body timeout) tasks).
  assert (∃ pairs, futures = Returns <$> pairs ∧ pairs.*1 = tasks.*1)
    as (pairs & Hf & Hp).
  { apply (futures_return worlds m hs body timeout urls tasks (fun j => j));
      [|done].
    subst tasks. unfold make_tasks. apply Forall_forall. intros [u i] Ht.
    apply list_elem_of_bind in Ht as (u' & Ht & Hu').
    apply list_elem_of_fmap in Ht as (i' & [= -> ->] & _). done. }
  assert (length futures = length tasks) as Hlen
    by (subst futures; apply length_imap).
  assert (as_completed pairs order ≡ₚ pairs) as Hdp.
  { apply as_completed_permutation. rewrite Hperm, <- Hlen, Hf.
    by rewrite length_fmap. }
  rewrite Hf, as_completed_fmap. set (done := as_completed pairs order) in *.
  destruct (collect_returns done (empty_results urls)) as (res & Hc & Hd & Hl).
  destruct (empty_results_fold urls ∅) as (Hed & Hein & _).
  fold (empty_results urls) in Hed, Hein.
  exists res. split_and!; [done | by rewrite Hd, Hed, dom_empty_L, union_empty_r_L |].
  intros u Hu. destruct (Hl u [] (Hein u Hu)) as (l & Hlu & Hlen').
  exists l. split; [done|]. rewrite Hlen'. cbn [length]. rewrite Nat.add_0_l.
  rewrite Hdp.
  rewrite (filter_fst_fmap u fst fst pairs tasks Hp).
  by apply count_tasks.
Qed.

(** * Further properties of the tracer *)

(** ** Text *)

Example b64encode_ex : decode (b64encode (encode "user:pass")) = "dXNlcjpwYXNz".
Proof. reflexivity. Qed.

Example b64encode_pad1_ex : decode (b64encode (encode "ab")) = "YWI=".
Proof. reflexivity. Qed.

Example b64encode_pad2_ex : decode (b64encode (encode "a")) = "YQ==".
Proof. reflexivity. Qed.

Example replace_ex :
  replace [x5c; LF] SP (encode "a " ++ [x5c; LF] ++ encode "b") = encode "a  b".
Proof. reflexivity. Qed.

Example str_split_ex : str_split "  -X  post   u " = ["-X"; "post"; "u"].
Proof. reflexivity. Qed.

Example curl_loop_ex :
  curl_loop ["-X"; "put"; "-H"; "A: b"; "-H"; "C:d "; "-H"; "bad"; "-d"; "x=1";
             "-u"; "user:pass"; "-L"; "example.com"; "-A"; "me"; "-o"]
    Curl.init
  = Curl.mk "example.com" "PUT"
      [("A", "b"); ("C", "d"); ("Authorization", "Basic dXNlcjpwYXNz");
       ("User-Agent", "me")] (Some "x=1").
Proof. reflexivity. Qed.

Lemma encode_decode l : encode (decode l) = l.
Proof. apply list_byte_of_string_of_list_byte. Qed.

Lemma encode_app s1 s2 : encode (s1 +:+ s2) = encode s1 ++ encode s2.
Proof.
  unfold encode, list_byte_of_string.
  induction s1 as [|a s1 IH]; [done|]. cbn. by rewrite <- IH.
Qed.

Lemma length_decode l : String.length (decode l) = length l.
Proof.
  unfold decode, string_of_list_byte. induction l as [|b l IH]; [done|].
  cbn [map string_of_list_ascii String.length]. by rewrite IH.
Qed.

Lemma lower_byte_idemp b : lower_byte (lower_byte b) = lower_byte b.
Proof. by destruct b. Qed.

Lemma lower_idemp l : lower (lower l) = lower l.
Proof.
  unfold lower. rewrite map_map. apply map_ext. intros. apply lower_byte_idemp.
Qed.

Lemma upper_byte_idemp b : upper_byte (upper_byte b) = upper_byte b.
Proof. by destruct b. Qed.

Lemma str_upper_idemp s : str_upper (str_upper s) = str_upper s.
Proof.
  unfold str_upper. rewrite encode_decode. f_equal. unfold upper.
  rewrite map_map. apply map_ext. intros. apply upper_byte_idemp.
Qed.

Lemma startswith_app p l : startswith p (p ++ l) = true.
Proof.
  induction p as [|a p IH]; [by destruct l|]. cbn.
  by rewrite bool_decide_true, IH.
Qed.

Lemma startswith_length p l : startswith p l = true → (length p ≤ length l)%nat.
Proof.
  revert l. induction p as [|a p IH]; intros [|b l] H; cbn in *; try done; try lia.
  apply andb_prop in H as [_ H]. apply IH in H. lia.
Qed.

Lemma find_bound sep l i : find sep l = Some i → (i + length sep ≤ length l)%nat.
Proof.
  revert i. induction l as [|b l IH]; intros i.
  - cbn. destruct (startswith sep []) eqn:E; [|done].
    intros [= <-]. by apply startswith_length in E.
  - change (find sep (b :: l))
      with (if startswith sep (b :: l) then Some 0%nat else S <$> find sep l).
    destruct (startswith sep (b :: l)) eqn:E.
    + intros [= <-]. by apply startswith_length in E.
    + destruct (find sep l) as [j|]; [|done]. intros [= <-].
      specialize (IH j eq_refl). cbn. lia.
Qed.

(** ** Failures of the network, phase by phase *)

(** X1: when the name lookup raises, [trace_request] returns the record
    it created, untouched but for the error text of the [except] clause
    that catches the exception; the clock was read once. *)
Theorem dns_failure_recorded w start u m hs body timeout fr mr parsed pp e :
  urlparse w u = Returns parsed → port parsed = Returns pp →
  x_getaddrinfo (exchange_of w start parsed pp m hs body) = Raises e →
  trace_request w start u m hs body timeout fr mr =
  (Returns
     (set_error
        (Some (handler w (hostname parsed)
                 (port_or_default pp (bool_decide (scheme parsed = "https")))
                 timeout e))
        (initial_timing u m hs)), S start).
Proof.
  intros Hu Hp Hx. unfold exchange_of in Hx.
  rewrite trace_request_unfold. unfold probe. rewrite Hu, Hp.
  unfold finish, try_body, redirect_block. run_measure.
  rewrite Hx. reflexivity.
Qed.

Lemma dns_failure_recorded_witness :
  ∃ t, trace_request (scripted_world dns_down) 0 "http://example.com/" "GET"
         None None demo_timeout true 10 = (Returns t, 1%nat)
       ∧ error t
         = Some "DNS resolution failed: [Errno -2] Name or service not known"
       ∧ dns_ms t = 0%Qc ∧ total_ms t = 0%Qc ∧ ip_address t = "".
Proof.
  eexists. split.
  - apply (dns_failure_recorded (scripted_world dns_down) 0 "http://example.com/"
             "GET" None None demo_timeout true 10
             (parsed "http" (Some "example.com") (Returns None) "/") None);
      reflexivity.
  - repeat split; reflexivity.
Defined.

(** X2: when the name lookup answers with no address, [trace_request]
    returns at once: the record has the lookup's duration, the error
    [DNS resolution failed for <host>], and nothing else. *)
Theorem dns_empty_answer_recorded w start u m hs body timeout fr mr parsed pp :
  urlparse w u = Returns parsed → port parsed = Returns pp →
  x_getaddrinfo (exchange_of w start parsed pp m hs body) = Returns [] →
  trace_request w start u m hs body timeout fr mr =
  (Returns
     (set_error (Some ("DNS resolution failed for " +:+ fmt_host (hostname parsed)))
        (set_dns_ms (ms (perf_counter w start) (perf_counter w (S start)))
           (initial_timing u m hs))), S (S start)).
Proof.
  intros Hu Hp Hx. unfold exchange_of in Hx.
  rewrite trace_request_unfold. unfold probe. rewrite Hu, Hp.
  unfold finish, try_body, redirect_block. run_measure.
  rewrite Hx. reflexivity.
Qed.

Lemma dns_empty_answer_recorded_witness :
  ∃ t, trace_request (scripted_world dns_empty) 0 "http://example.com/" "GET"
         None None demo_timeout true 10 = (Returns t, 2%nat)
       ∧ error t = Some "DNS resolution failed for example.com"
       ∧ total_ms t = 0%Qc.
Proof.
  eexists. split.
  - apply (dns_empty_answer_recorded (scripted_world dns_empty) 0
             "http://example.com/" "GET" None None demo_timeout true 10
             (parsed "http" (Some "example.com") (Returns None) "/") None);
      reflexivity.
  - split; reflexivity.
Defined.

(** X3: when [connect] raises, the record has the lookup's duration and
    the address that was tried, the error text of the [except] clause
    for the exception, and no connect duration. *)
Theorem connect_failure_recorded w start u m hs body timeout fr mr parsed pp ai ais e :
  urlparse w u = Returns parsed → port parsed = Returns pp →
  x_getaddrinfo (exchange_of w start parsed pp m hs body) = Returns (ai :: ais) →
  x_connect (exchange_of w start parsed pp m hs body) = Raises e →
  trace_request w start u m hs body timeout fr mr =
  (Returns
     (set_error
        (Some (handler w (hostname parsed)
                 (port_or_default pp (bool_decide (scheme parsed = "https")))
                 timeout e))
        (set_ip_address (ai_sockaddr ai).1
           (set_dns_ms (ms (perf_counter w start) (perf_counter w (S start)))
              (initial_timing u m hs)))), S (S (S start))).
Proof.
  intros Hu Hp Hx Hc. unfold exchange_of in Hx, Hc.
  rewrite trace_request_unfold. unfold probe. rewrite Hu, Hp.
  unfold finish, try_body, redirect_block. run_measure.
  rewrite Hx. cbn. rewrite Hc. reflexivity.
Qed.

Lemma connect_failure_recorded_witness :
  ∃ t, trace_request demo_world 0 "http://example.com/down" "GET" None None
         demo_timeout true 10 = (Returns t, 3%nat)
       ∧ error t = Some "Connection refused by example.com:80"
       ∧ ip_address t = "93.184.216.34" ∧ tcp_connect_ms t = 0%Qc.
Proof.
  eexists. split.
  - apply (connect_failure_recorded demo_world 0 "http://example.com/down" "GET"
             None None demo_timeout true 10
             (parsed "http" (Some "example.com") (Returns None) "/down") None
             demo_addr []); reflexivity.
  - repeat split; reflexivity.
Defined.

(** X4: over plain HTTP, when the first read raises (a timeout, say),
    the record has the durations of the lookup and of the connect, the
    address, the error text for the exception, and no later duration, no
    total and no status. *)
Theorem first_read_failure_recorded w start u m hs body timeout fr mr parsed pp
    ai ais e :
  urlparse w u = Returns parsed → port parsed = Returns pp →
  scheme parsed ≠ "https" →
  x_getaddrinfo (exchange_of w start parsed pp m hs body) = Returns (ai :: ais) →
  x_connect (exchange_of w start parsed pp m hs body) = Returns tt →
  x_sendall (exchange_of w start parsed pp m hs body) = Returns tt →
  x_recv_first (exchange_of w start parsed pp m hs body) = Raises e →
  trace_request w start u m hs body timeout fr mr =
  (Returns
     (set_error (Some (handler w (hostname parsed) (port_or_default pp false) timeout e))
        (set_tcp_connect_ms
           (ms (perf_counter w (S (S start))) (perf_counter w (S (S (S start)))))
           (set_ip_address (ai_sockaddr ai).1
              (set_dns_ms (ms (perf_counter w start) (perf_counter w (S start)))
                 (initial_timing u m hs))))),
   S (S (S (S (S start))))).
Proof.
  intros Hu Hp Hs Hx Hc Hsd Hr. unfold exchange_of in *.
  rewrite bool_decide_false in * by done.
  rewrite trace_request_unfold. unfold probe. rewrite Hu, Hp.
  rewrite bool_decide_false by done.
  unfold finish, try_body, redirect_block. run_measure.
  rewrite Hx. cbn. rewrite Hc. cbn. rewrite Hsd. cbn. rewrite Hr. reflexivity.
Qed.

Lemma first_read_failure_recorded_witness :
  ∃ t, trace_request (scripted_world server_silent) 0 "http://example.com/" "GET"
         None None demo_timeout true 10 = (Returns t, 5%nat)
       ∧ error t = Some "Connection timed out after 30.0s"
       ∧ total_ms t = 0%Qc ∧ status_code t = 0.
Proof.
  eexists. split.
  - eapply (first_read_failure_recorded (scripted_world server_silent) 0
              "http://example.com/" "GET" None None demo_timeout true 10
              (parsed "http" (Some "example.com") (Returns None) "/") None
              demo_addr []); try reflexivity. discriminate.
  - split; [reflexivity|]. split; reflexivity.
Defined.

(** X5: when the transfer loop raises (a read fails other than by a
    timeout, or a [Content-Length] value is not a number), the response
    received so far is not parsed at all: the record has the error text
    for the exception, no status code, no size, no body, no headers, no
    transfer duration and no total. *)
Theorem transfer_failure_recorded w start u m hs body timeout fr mr parsed pp
    ai ais chunk e :
  urlparse w u = Returns parsed → port parsed = Returns pp →
  x_getaddrinfo (exchange_of w start parsed pp m hs body) = Returns (ai :: ais) →
  x_connect (exchange_of w start parsed pp m hs body) = Returns tt →
  (scheme parsed = "https" →
   ∃ v, x_wrap_socket (exchange_of w start parsed pp m hs body) = Returns v) →
  x_sendall (exchange_of w start parsed pp m hs body) = Returns tt →
  x_recv_first (exchange_of w start parsed pp m hs body) = Returns chunk →
  (read_loop (x_recv_rest (exchange_of w start parsed pp m hs body)) chunk).1
  = Raises e →
  ∃ t n,
    trace_request w start u m hs body timeout fr mr = (Returns t, n)
    ∧ error t
      = Some (handler w (hostname parsed)
                (port_or_default pp (bool_decide (scheme parsed = "https"))) timeout e)
    ∧ status_code t = 0 ∧ response_size t = 0 ∧ response_body t = ""
    ∧ headers_received t = ∅
    ∧ content_transfer_ms t = 0%Qc ∧ total_ms t = 0%Qc.
Proof.
  intros Hu Hp Hx Hc Htls Hsd Hr Hl. unfold exchange_of in *.
  rewrite trace_request_unfold. unfold probe. rewrite Hu, Hp.
  unfold finish, try_body, redirect_block. run_measure.
  rewrite Hx. cbn. rewrite Hc. cbn.
  assert (∀ t0 : TimingBreakdown,
            status_code t0 = 0 → response_size t0 = 0 → response_body t0 = "" →
            headers_received t0 = ∅ → content_transfer_ms t0 = 0%Qc →
            total_ms t0 = 0%Qc →
            ∀ msg, let t := set_error (Some msg) t0 in
                   error t = Some msg ∧ status_code t = 0 ∧ response_size t = 0
                   ∧ response_body t = "" ∧ headers_received t = ∅
                   ∧ content_transfer_ms t = 0%Qc ∧ total_ms t = 0%Qc) as Hfin
    by (intros t0 ? ? ? ? ? ? msg; by destruct t0).
  assert (status_code (initial_timing u m hs) = 0
          ∧ response_size (initial_timing u m hs) = 0
          ∧ response_body (initial_timing u m hs) = ""
          ∧ headers_received (initial_timing u m hs) = ∅
          ∧ content_transfer_ms (initial_timing u m hs) = 0%Qc
          ∧ total_ms (initial_timing u m hs) = 0%Qc) as (I1 & I2 & I3 & I4 & I5 & I6)
    by (unfold initial_timing; by destruct (truthy_dict hs)).
  destruct (bool_decide (scheme parsed = "https")) eqn:Hs; cbn.
  - apply bool_decide_eq_true in Hs. destruct (Htls Hs) as [v Hv].
    rewrite Hv. cbn. rewrite Hsd. cbn. rewrite Hr. cbn. rewrite Hl. cbn.
    eexists _, _. split; [reflexivity|].
    apply Hfin; by destruct (initial_timing u m hs).
  - rewrite Hsd. cbn. rewrite Hr. cbn. rewrite Hl. cbn.
    eexists _, _. split; [reflexivity|].
    apply Hfin; by destruct (initial_timing u m hs).
Qed.

Lemma transfer_failure_recorded_witness :
  ∃ t n,
    trace_request (scripted_world bad_length) 0 "http://example.com/" "GET" None None
      demo_timeout true 10 = (Returns t, n)
    ∧ error t = Some "Request failed: invalid literal for int() with base 10: 'two'"
    ∧ status_code t = 0.
Proof.
  edestruct (transfer_failure_recorded (scripted_world bad_length) 0
               "http://example.com/" "GET" None None demo_timeout true 10
               (parsed "http" (Some "example.com") (Returns None) "/") None
               demo_addr [])
    as (t & n & Ht & He & Hs & _);
    [ reflexivity | reflexivity | reflexivity | reflexivity | discriminate
    | reflexivity | reflexivity | vm_compute; reflexivity | ].
  exists t, n. split; [exact Ht|]. split; [|exact Hs].
  rewrite He. vm_compute. reflexivity.
Defined.

(** ** The chain of redirects *)

Lemma wants_redirect_budget fr mr t : wants_redirect fr mr t = true → 0 < mr.
Proof.
  unfold wants_redirect. intros H.
  apply andb_prop in H as [H _]. apply andb_prop in H as [_ H].
  by apply bool_decide_eq_true in H.
Qed.

Lemma wants_redirect_no_error fr mr t : wants_redirect fr mr t = true → error t = None.
Proof.
  unfold wants_redirect. intros H.
  do 4 (apply andb_prop in H as [H _]). by apply bool_decide_eq_true in H.
Qed.

(** Induction over the chain: a property of records that holds of every
    first hop, is kept by the fold of a hop into the record of its
    follow-up, and by the recording of an error in a hop, holds of
    every record that [trace_request] returns. *)
Lemma trace_request_chain (P : string → TimingBreakdown → Prop)
    w m hs body timeout fr :
  (∀ start u t n, first_hop w start u m hs body timeout = (Returns t, n) → P u t) →
  (∀ start u t n loc rt,
     first_hop w start u m hs body timeout = (Returns t, n) → error t = None →
     P loc rt → P u (fold_redirect u t rt)) →
  (∀ start u t n msg,
     first_hop w start u m hs body timeout = (Returns t, n) →
     P u (set_error (Some msg) t)) →
  ∀ mr start u t n,
    trace_request w start u m hs body timeout fr mr = (Returns t, n) → P u t.
Proof.
  intros Hhop Hfold Herr mr.
  remember (Z.to_nat mr) as k eqn:Hk. revert mr Hk.
  induction k as [|k IH]; intros mr Hk start u t n Ht.
  - destruct (trace_request_returns_parsed _ _ _ _ _ _ _ _ _ _ _ Ht)
      as (parsed & pp & Hu & Hp).
    destruct (trace_request_step w start u m hs body timeout fr mr parsed pp Hu Hp)
      as (t1 & n1 & Hh & Heq).
    rewrite Heq in Ht. destruct (wants_redirect fr mr t1) eqn:Hw.
    + apply wants_redirect_budget in Hw. lia.
    + injection Ht as <- <-. eauto.
  - destruct (trace_request_returns_parsed _ _ _ _ _ _ _ _ _ _ _ Ht)
      as (parsed & pp & Hu & Hp).
    destruct (trace_request_step w start u m hs body timeout fr mr parsed pp Hu Hp)
      as (t1 & n1 & Hh & Heq).
    rewrite Heq in Ht. destruct (wants_redirect fr mr t1) eqn:Hw.
    + destruct (trace_request w n1 _ m hs body timeout fr (mr - 1))
        as [[rt|e] n'] eqn:Hr; injection Ht as <- <-.
      * eapply Hfold; [exact Hh | by eapply wants_redirect_no_error |].
        eapply (IH (mr - 1)); [lia | exact Hr].
      * eapply Herr. exact Hh.
    + injection Ht as <- <-. eauto.
Qed.

Lemma fold_redirect_fields u t rt :
  let r := fold_redirect u t rt in
  dns_ms r = (dns_ms rt + dns_ms t)%Qc
  ∧ tcp_connect_ms r = (tcp_connect_ms rt + tcp_connect_ms t)%Qc
  ∧ tls_handshake_ms r = (tls_handshake_ms rt + tls_handshake_ms t)%Qc
  ∧ server_processing_ms r = server_processing_ms rt
  ∧ content_transfer_ms r = content_transfer_ms rt
  ∧ total_ms r = (total_ms rt + total_ms t)%Qc
  ∧ url r = u ∧ error r = error rt ∧ method r = method rt
  ∧ status_code r = status_code rt ∧ headers_sent r = headers_sent rt.
Proof. destruct rt, t. cbn. by split_and!. Qed.

(** X6: with [follow_redirects=False], or with no redirect budget, no
    follow-up request is made: the result is the record of the request
    itself, whatever its status. *)
Theorem redirects_disabled w start u m hs body timeout fr mr :
  fr = false ∨ mr ≤ 0 →
  trace_request w start u m hs body timeout fr mr
  = first_hop w start u m hs body timeout.
Proof.
  intros H. rewrite trace_request_unfold. unfold first_hop, probe.
  destruct (urlparse w u) as [parsed|e]; [|done].
  destruct (port parsed) as [pp|e]; [|done].
  f_equal. unfold try_body, bind.
  destruct (measure _ _ _ _ _) as [[[t|]|e] s]; [done | | done].
  unfold redirect_block, bind, get_timing, ret. cbn.
  destruct H as [-> | H]; [by case_bool_decide|].
  by rewrite bool_decide_false by lia.
Qed.

Lemma redirects_disabled_witness :
  ∃ t, trace_request demo_world 0 "http://example.com/old" "GET" None None
         demo_timeout false 10 = (Returns t, 8%nat)
       ∧ status_code t = 301 ∧ error t = None.
Proof.
  rewrite (redirects_disabled demo_world 0 "http://example.com/old" "GET" None None
             demo_timeout false 10); [|left; reflexivity].
  eexists. split; [vm_compute; reflexivity|]. split; reflexivity.
Defined.

(** Every record that [trace_request] returns is [accounted]. *)
Lemma trace_request_accounted w start u m hs body timeout fr mr t n :
  monotonic w →
  trace_request w start u m hs body timeout fr mr = (Returns t, n) → accounted t.
Proof.
  intros Hw. revert mr start u t n. apply trace_request_chain.
  - intros s u' t' n' Hh.
    destruct (first_hop_spec _ _ _ _ _ _ _ _ _ Hh) as (_ & Hok & Hbad & Hnn).
    specialize (Hnn Hw). split; [done|].
    destruct (error t') eqn:E.
    + destruct Hbad as [-> _]; [done|]. done.
    + rewrite Hok by done. split; [by apply phase_sum_nonneg|]. intros _.
      apply Qcle_refl.
  - intros s u' t' n' loc rt Hh He (Hrn & Hrt & Hrs).
    destruct (first_hop_spec _ _ _ _ _ _ _ _ _ Hh) as (_ & Hok & _ & Hnn).
    specialize (Hnn Hw). specialize (Hok He).
    destruct (fold_redirect_fields u' t' rt)
      as (H1 & H2 & H3 & H4 & H5 & H6 & _ & H8 & _).
    pose proof (phase_sum_nonneg _ Hnn) as Hps.
    destruct Hnn as (? & ? & ? & ? & ?). destruct Hrn as (? & ? & ? & ? & ?).
    unfold accounted, phases_nonneg, phase_sum in *.
    rewrite H1, H2, H3, H4, H5, H6, H8, Hok.
    split_and!; try (by apply Qcplus_nonneg_nonneg); try done.
    intros Her. specialize (Hrs Her).
    match goal with |- (?a ≤ ?b)%Qc =>
      replace a with ((dns_ms rt + tcp_connect_ms rt + tls_handshake_ms rt
                       + server_processing_ms rt + content_transfer_ms rt)
                      + (dns_ms t' + tcp_connect_ms t' + tls_handshake_ms t'))%Qc
        by ring end.
    apply Qcplus_le_compat; [done|].
    rewrite <- (Qcplus_0_r (dns_ms t' + tcp_connect_ms t' + tls_handshake_ms t')) at 1.
    rewrite <- !Qcplus_assoc.
    do 3 (apply Qcplus_le_compat; [apply Qcle_refl|]).
    by apply Qcplus_nonneg_nonneg.
  - intros s u' t' n' msg Hh.
    destruct (first_hop_spec _ _ _ _ _ _ _ _ _ Hh) as (_ & Hok & Hbad & Hnn).
    specialize (Hnn Hw). unfold accounted.
    rewrite error_set_error, total_set_error.
    split_and!; [by destruct t' | | done].
    destruct (error t') eqn:E.
    + destruct Hbad as [-> _]; done.
    + rewrite Hok by done. by apply phase_sum_nonneg.
Qed.

Lemma overhead_accounted t :
  (phase_sum t ≤ total_ms t)%Qc → overhead_ms t = (total_ms t - phase_sum t)%Qc.
Proof.
  intros Hsum. unfold overhead_ms, py_max.
  destruct (Qclt_le_dec _ _) as [|Hle]; [done|].
  apply Qcle_antisym; [|exact Hle].
  unfold Qcminus. apply Qcle_minus_iff in Hsum. exact Hsum.
Qed.

(** X7: with a clock that never goes back, whatever the network does
    and however many redirects are followed, no duration of the returned
    record is negative; and when the record has no error, the five
    phases sum to at most the total, so that [overhead_ms] is exactly
    the total minus that sum. *)
Theorem timings_never_negative w start u m hs body timeout fr mr t n :
  monotonic w →
  trace_request w start u m hs body timeout fr mr = (Returns t, n) →
  (0 ≤ dns_ms t ∧ 0 ≤ tcp_connect_ms t ∧ 0 ≤ tls_handshake_ms t
   ∧ 0 ≤ server_processing_ms t ∧ 0 ≤ content_transfer_ms t ∧ 0 ≤ total_ms t)%Qc
  ∧ (error t = None →
     (dns_ms t + tcp_connect_ms t + tls_handshake_ms t + server_processing_ms t
      + content_transfer_ms t ≤ total_ms t)%Qc
     ∧ overhead_ms t = (total_ms t - phase_sum t)%Qc).
Proof.
  intros Hw Ht.
  destruct (trace_request_accounted _ _ _ _ _ _ _ _ _ _ _ Hw Ht) as (Hn & Htot & Hsum).
  split.
  - destruct Hn as (? & ? & ? & ? & ?). by split_and!.
  - intros He. specialize (Hsum He). split; [exact Hsum|].
    by apply overhead_accounted.
Qed.

Lemma timings_never_negative_witness :
  ∃ t, trace_request demo_world 0 "http://example.com/old" "GET" None None
         demo_timeout true 10 = (Returns t, 16%nat)
       ∧ (0 ≤ total_ms t)%Qc
       ∧ overhead_ms t = (total_ms t - phase_sum t)%Qc.
Proof.
  eexists. split; [vm_compute; reflexivity|].
  match goal with |- (0 ≤ total_ms ?t)%Qc ∧ _ =>
    destruct (timings_never_negative demo_world 0 "http://example.com/old" "GET"
                None None demo_timeout true 10 t 16%nat)
      as ((_ & _ & _ & _ & _ & Ht) & Ho);
      [exact demo_world_monotonic | vm_compute; reflexivity |]
  end.
  split; [exact Ht|]. apply Ho. reflexivity.
Defined.

Lemma parse_response_request d t :
  method (parse_response d t) = method t
  ∧ headers_sent (parse_response d t) = headers_sent t.
Proof.
  unfold parse_response. destruct t. cbn.
  destruct (find CRLFCRLF d); [|done].
  destruct (parse_status _) as [[c|]|e]; cbn; try done;
    destruct (is_chunked _); done.
Qed.

Lemma measure_request w x host https s0 :
  method (timing (measure w x host https s0).2) = method (timing s0)
  ∧ headers_sent (timing (measure w x host https s0).2) = headers_sent (timing s0)
  ∧ match (measure w x host https s0).1 with
    | Returns (Some t) => t = timing (measure w x host https s0).2
    | _ => True
    end.
Proof.
  destruct s0 as [n t0]. destruct t0. run_measure.
  destruct (x_getaddrinfo x) as [[|ai ais]|e]; cbn; [done | | done].
  destruct (x_connect x) as [[]|e]; cbn; [|done].
  destruct https; cbn;
    [destruct (x_wrap_socket x) as [v|e]; cbn; [|done] |];
    (destruct (x_sendall x) as [[]|e]; cbn; [|done]);
    (destruct (x_recv_first x) as [chunk|e]; cbn; [|done]);
    (destruct (read_loop _ _).1 as [data|e]; cbn; [|done]);
    match goal with
    | |- context [parse_response ?d ?t] =>
        destruct (parse_response_request d t) as [Hm Hs];
        destruct (parse_response d t)
    end; cbn in *; by rewrite Hm, Hs.
Qed.

Lemma first_hop_request w start u m hs body timeout t n :
  first_hop w start u m hs body timeout = (Returns t, n) →
  method t = str_upper m ∧ headers_sent t = default [] hs.
Proof.
  unfold first_hop, probe.
  destruct (urlparse w u) as [parsed|e]; [|done].
  destruct (port parsed) as [pp|e]; [|done].
  unfold try_body, bind.
  match goal with |- context [measure ?w ?x ?h ?s ?s0] =>
    pose proof (measure_request w x h s s0) as Hm;
    destruct (measure w x h s s0) as [[[t'|]|e] s1] end; cbn in Hm.
  all: assert (method (initial_timing u m hs) = str_upper m
               ∧ headers_sent (initial_timing u m hs) = default [] hs) as [Hi1 Hi2]
         by (unfold initial_timing; by destruct hs as [[|]|]).
  all: rewrite Hi1, Hi2 in Hm; destruct Hm as (Hm1 & Hm2 & Hm3).
  - subst t'. cbn. by intros [= <- <-].
  - unfold redirect_block, bind, get_timing, ret. cbn. by intros [= <- <-].
  - cbn. intros [= <- <-]. by destruct (timing s1).
Qed.

(** The record carries the URL that was asked for. *)
Lemma trace_request_url w start u m hs body timeout fr mr t n :
  trace_request w start u m hs body timeout fr mr = (Returns t, n) → url t = u.
Proof.
  revert mr start u t n. apply (trace_request_chain (fun u t => url t = u)).
  - intros s u t n Hh. by destruct (first_hop_spec _ _ _ _ _ _ _ _ _ Hh).
  - intros s u t n loc rt _ _ _.
    by destruct (fold_redirect_fields u t rt) as (_ & _ & _ & _ & _ & _ & H7 & _).
  - intros s u t n msg Hh. rewrite url_set_error.
    by destruct (first_hop_spec _ _ _ _ _ _ _ _ _ Hh).
Qed.

(** X8: however many redirects were followed, and also when an error
    was recorded, the returned record carries the URL that was asked
    for, the method in upper case and the caller's headers. *)
Theorem request_identity_kept w start u m hs body timeout fr mr t n :
  trace_request w start u m hs body timeout fr mr = (Returns t, n) →
  url t = u ∧ method t = str_upper m ∧ headers_sent t = default [] hs.
Proof.
  revert mr start u t n.
  apply (trace_request_chain
           (fun u t => url t = u ∧ method t = str_upper m
                       ∧ headers_sent t = default [] hs)).
  - intros s u t n Hh.
    destruct (first_hop_spec _ _ _ _ _ _ _ _ _ Hh) as (Hu & _).
    destruct (first_hop_request _ _ _ _ _ _ _ _ _ Hh). done.
  - intros s u t n loc rt Hh _ (_ & Hm & Hs).
    destruct (fold_redirect_fields u t rt)
      as (_ & _ & _ & _ & _ & _ & H7 & _ & H9 & _ & H11).
    by rewrite H7, H9, H11.
  - intros s u t n msg Hh.
    destruct (first_hop_spec _ _ _ _ _ _ _ _ _ Hh) as (Hu & _).
    destruct (first_hop_request _ _ _ _ _ _ _ _ _ Hh) as [Hm Hs].
    destruct t. cbn in *. done.
Qed.

Lemma request_identity_kept_witness :
  ∃ t, trace_request demo_world 0 "http://example.com/old" "get"
         (Some [("X-Run", "1")]) None demo_timeout true 10 = (Returns t, 16%nat)
       ∧ url t = "http://example.com/old" ∧ method t = "GET"
       ∧ headers_sent t = [("X-Run", "1")].
Proof.
  eexists. split; [vm_compute; reflexivity|].
  eapply (request_identity_kept demo_world 0 "http://example.com/old" "get"
            (Some [("X-Run", "1")]) None demo_timeout true 10 _ 16%nat).
  vm_compute; reflexivity.
Defined.



(** ** Plain HTTP *)





(** ** What a record holds of the response *)

Lemma add_header_lower h line :
  (∀ k v, h !! k = Some v → str_lower k = k) →
  ∀ k v, add_header h line !! k = Some v → str_lower k = k.
Proof.
  intros Hh k v. unfold add_header.
  destruct (split1 COLON_SP line) as [[kb vb]|]; [|eauto].
  destruct (decide (k = decode (lower kb))) as [->|Hne].
  - intros _. unfold str_lower. by rewrite encode_decode, lower_idemp.
  - rewrite lookup_insert_ne by done. eauto.
Qed.

Lemma fold_add_header_lower lines h :
  (∀ k v, h !! k = Some v → str_lower k = k) →
  ∀ k v, fold_left add_header lines h !! k = Some v → str_lower k = k.
Proof.
  revert h. induction lines as [|line lines IH]; intros h Hh; [done|].
  cbn. apply IH. by apply add_header_lower.
Qed.

Lemma parse_response_received d t : received_ok t → received_ok (parse_response d t).
Proof.
  intros [Hk Hb]. unfold parse_response.
  destruct (find CRLFCRLF d) as [p|]; [|done].
  destruct (parse_status _) as [sc|e]; [|by destruct t].
  assert (∀ t0 : TimingBreakdown,
            received_ok (set_response_body (decode (take 4000 (drop (p + 4) d)))
              (set_headers_received
                 (fold_left add_header (tail (split_crlf (take p d))) ∅) t0))) as Hok.
  { intros t0. destruct t0. split; cbn.
    - apply fold_add_header_lower. intros k v Hl. by rewrite lookup_empty in Hl.
    - rewrite length_decode, length_take. lia. }
  destruct (is_chunked _).
  - match goal with |- received_ok (set_response_body ?b (set_response_size ?z
                         (set_headers_received ?h ?t0))) =>
      specialize (Hok t0); destruct t0 end. exact Hok.
  - apply Hok.
Qed.

Lemma measure_received w x host https s0 :
  received_ok (timing s0) → received_ok (timing (measure w x host https s0).2).
Proof.
  intros H0. destruct s0 as [n t0]. cbn in H0. run_measure.
  destruct (x_getaddrinfo x) as [[|ai ais]|e]; cbn; [by destruct t0 | | done].
  destruct (x_connect x) as [[]|e]; cbn; [|by destruct t0].
  destruct https; cbn;
    [destruct (x_wrap_socket x) as [v|e]; cbn; [|by destruct t0] |];
    (destruct (x_sendall x) as [[]|e]; cbn; [|by destruct t0]);
    (destruct (x_recv_first x) as [chunk|e]; cbn; [|by destruct t0]);
    (destruct (read_loop _ _).1 as [data|e]; cbn; [|by destruct t0]);
    match goal with
    | |- context [parse_response ?d ?t] =>
        assert (received_ok (parse_response d t)) as Hp
          by (apply parse_response_received; by destruct t0);
        destruct (parse_response d t)
    end; exact Hp.
Qed.

Lemma first_hop_received w start u m hs body timeout t n :
  first_hop w start u m hs body timeout = (Returns t, n) → received_ok t.
Proof.
  unfold first_hop, probe.
  destruct (urlparse w u) as [parsed|e]; [|done].
  destruct (port parsed) as [pp|e]; [|done].
  unfold try_body, bind.
  match goal with |- context [measure ?w ?x ?h ?s ?s0] =>
    pose proof (measure_received w x h s s0) as Hm;
    pose proof (measure_spec w x h s s0) as Hs;
    destruct (measure w x h s s0) as [[[t'|]|e] s1] end; cbn in Hm, Hs.
  all: assert (received_ok (initial_timing u m hs)) as Hi
         by (unfold initial_timing; destruct (truthy_dict hs); split; cbn;
             solve [intros k v Hl; by rewrite lookup_empty in Hl | lia]).
  all: specialize (Hm Hi).
  - destruct Hs as (-> & _). cbn. by intros [= <- <-].
  - unfold redirect_block, bind, get_timing, ret. cbn. by intros [= <- <-].
  - cbn. intros [= <- <-]. by destruct (timing s1).
Qed.

Lemma trace_request_received w start u m hs body timeout fr mr t n :
  trace_request w start u m hs body timeout fr mr = (Returns t, n) → received_ok t.
Proof.
  revert mr start u t n. apply (trace_request_chain (fun _ t => received_ok t)).
  - intros s u t n. apply first_hop_received.
  - intros s u t n loc rt _ _ Hr. by destruct rt, t.
  - intros s u t n msg Hh. apply first_hop_received in Hh. by destruct t.
Qed.

(** X11: the names of the response headers in a returned record are in
    lower case, whatever the server sent; a lookup such as
    [headers_received.get("location")] does not depend on the server's
    spelling. *)
Theorem received_header_names_lowercase w start u m hs body timeout fr mr t n k v :
  trace_request w start u m hs body timeout fr mr = (Returns t, n) →
  headers_received t !! k = Some v → str_lower k = k.
Proof. intros Ht. apply (trace_request_received _ _ _ _ _ _ _ _ _ _ _ Ht). Qed.

Lemma received_header_names_lowercase_witness :
  ∃ t, trace_request demo_world 0 "http://example.com/old" "GET" None None
         demo_timeout false 10 = (Returns t, 8%nat)
       ∧ headers_received t !! "location" = Some "/new"
       ∧ str_lower "location" = "location".
Proof.
  eexists. split; [vm_compute; reflexivity|]. split; [vm_compute; reflexivity|].
  eapply (received_header_names_lowercase demo_world 0 "http://example.com/old"
            "GET" None None demo_timeout false 10 _ 8%nat "location" "/new");
    vm_compute; reflexivity.
Defined.

(** X12: the body text kept in a returned record is at most 4000
    characters long. *)
Theorem response_body_truncated w start u m hs body timeout fr mr t n :
  trace_request w start u m hs body timeout fr mr = (Returns t, n) →
  (String.length (response_body t) ≤ 4000)%nat.
Proof. intros Ht. apply (trace_request_received _ _ _ _ _ _ _ _ _ _ _ Ht). Qed.

Lemma response_body_truncated_witness :
  ∃ t, trace_request demo_world 0 "http://example.com/" "GET" None None
         demo_timeout true 10 = (Returns t, 8%nat)
       ∧ response_body t = "hi"
       ∧ (String.length (response_body t) ≤ 4000)%nat.
Proof.
  eexists. split; [vm_compute; reflexivity|]. split; [reflexivity|].
  eapply (response_body_truncated demo_world 0 "http://example.com/" "GET" None None
            demo_timeout true 10 _ 8%nat).
  vm_compute; reflexivity.
Defined.

(** X13: for a response that is not taken as chunked, the size reported
    is the number of bytes after the blank line that ends the headers,
    also when the status line could not be parsed; it is not negative. *)
Theorem plain_response_size d t p :
  find CRLFCRLF d = Some p → headers_received t = ∅ →
  is_chunked (headers_received (parse_response d t)) = false →
  response_size (parse_response d t) = Z.of_nat (length d) - Z.of_nat p - 4
  ∧ 0 ≤ response_size (parse_response d t).
Proof.
  intros Hf Ht Hc.
  assert (response_size (parse_response d t) = Z.of_nat (length d) - Z.of_nat p - 4)
    as Hs.
  { revert Hc. unfold parse_response. rewrite Hf.
    assert (Z.of_nat (length (drop (p + 4) d))
            = Z.of_nat (length d) - Z.of_nat p - 4) as <-.
    { rewrite length_drop. apply find_bound in Hf. cbn in Hf. lia. }
    destruct (parse_status _) as [sc|e]; [|by destruct t].
    destruct t. cbn in Ht. subst.
    destruct sc; cbn;
      destruct (is_chunked (fold_left add_header _ ∅)) eqn:E; cbn;
      by rewrite ?E. }
  split; [exact Hs|]. rewrite Hs. apply find_bound in Hf. cbn in Hf. lia.
Qed.

Lemma plain_response_size_witness :
  response_size (parse_response demo_ok (initial_timing "http://example.com/" "GET" None))
  = 2.
Proof.
  edestruct (plain_response_size demo_ok
               (initial_timing "http://example.com/" "GET" None)) as [Hs _];
    [vm_compute; reflexivity | reflexivity | vm_compute; reflexivity |].
  rewrite Hs. vm_compute. reflexivity.
Defined.

(** ** Chunked bodies and the transfer loop *)





(** X15: a read inside the transfer loop that brings bytes, on a
    response with one [content-length] line declaring [n] bytes and no
    chunked encoding: the loop ends with that read exactly when the
    body received has reached [n] bytes, and otherwise goes on to the
    next read. *)
Theorem content_length_ends_transfer chunk reads d p pre line k v n post :
  chunk ≠ [] →
  find CRLFCRLF (d ++ chunk) = Some p →
  split_crlf (lower (take p (d ++ chunk))) = pre ++ line :: post →
  Forall (fun line => startswith CONTENT_LENGTH line = false) pre →
  Forall (fun line => startswith CONTENT_LENGTH line = false) post →
  startswith CONTENT_LENGTH line = true →
  split1 COLON line = Some (k, v) → str_int 10 (str_strip v) = Some n →
  contains TE_CHUNKED (lower (take p (d ++ chunk))) = false →
  read_loop (Returns chunk :: reads) d =
  if n <=? Z.of_nat (length (d ++ chunk)) - Z.of_nat p - 4
  then (Returns (d ++ chunk), 1%nat)
  else ((read_loop reads (d ++ chunk)).1, S (read_loop reads (d ++ chunk)).2).
Proof.
  intros Hc Hf Hs Hpre Hpost Hl Hk Hn Hte.
  pose proof (content_length_check _ _ _ _ _ _ _ _ Hf Hs Hpre Hpost Hl Hk Hn Hte) as Ha.
  destruct (n <=? _).
  - by apply read_loop_stops.
  - by apply read_loop_continues.
Qed.

Lemma content_length_ends_transfer_witness :
  read_loop [Returns (encode "i"); Returns (encode "more")] (take 39 demo_ok)
  = (Returns demo_ok, 1%nat).
Proof.
  rewrite (content_length_ends_transfer (encode "i") [Returns (encode "more")]
             (take 39 demo_ok) 34
             [encode "http/1.1 200 ok"] (encode "content-length: 2")
             (encode "content-length") (encode " 2") 2 []);
    try (vm_compute; reflexivity).
  - discriminate.
  - constructor; [vm_compute; reflexivity | constructor].
  - constructor.
Defined.

(** X16: the buffer with which the transfer loop ends is the buffer it
    started with followed by the bytes of the reads it made, in order
    and with nothing dropped: the reads consumed are a prefix of the
    answers of the network, none of them empty, and the loop called
    [recv] once for each of them and at most once more. *)
Theorem read_loop_buffer reads d d' k :
  read_loop reads d = (Returns d', k) →
  ∃ chunks,
    take (length chunks) reads = Returns <$> chunks
    ∧ Forall (fun chunk => chunk ≠ []) chunks
    ∧ d' = d ++ concat chunks
    ∧ (k = length chunks ∨ k = S (length chunks)).
Proof.
  revert d k. induction reads as [|r reads IH]; intros d k H.
  - injection H as <- <-. exists []. by rewrite app_nil_r; auto.
  - destruct r as [[|b chunk]|e].
    + injection H as <- <-. exists []. by rewrite app_nil_r; auto.
    + cbn in H. destruct (after_read (d ++ b :: chunk)) as [[]|e] eqn:Ha.
      * injection H as <- <-. exists [b :: chunk]. cbn. rewrite app_nil_r.
        split_and!; auto.
      * destruct (read_loop reads (d ++ b :: chunk)) as [r n] eqn:Hr.
        injection H as -> <-.
        destruct (IH _ _ Hr) as (cs & Ht & Hne & -> & Hk).
        exists ((b :: chunk) :: cs). cbn. rewrite Ht, <- app_assoc.
        split_and!; auto. destruct Hk as [->| ->]; auto.
      * destruct e; try done. injection H as <- <-.
        exists [b :: chunk]. cbn. rewrite app_nil_r. split_and!; auto.
    + destruct e; try done. injection H as <- <-. exists [].
      by rewrite app_nil_r; auto.
Qed.

Lemma read_loop_buffer_witness :
  ∃ chunks,
    take (length chunks) [Returns (encode "h"); Returns (encode "i"); Returns (encode "!")]
    = Returns <$> chunks
    ∧ demo_ok = take 38 demo_ok ++ concat chunks.
Proof.
  edestruct (read_loop_buffer
               [Returns (encode "h"); Returns (encode "i"); Returns (encode "!")]
               (take 38 demo_ok)) as (cs & Ht & _ & Hd & _);
    [vm_compute; reflexivity|].
  exists cs. split; [exact Ht | exact Hd].
Defined.

(** ** The request headers *)

Lemma dict_set_keys k v d :
  (dict_set k v d).*1 = if bool_decide (k ∈ d.*1) then d.*1 else d.*1 ++ [k].
Proof.
  induction d as [|[k' v'] d IH]; [done|]. cbn [dict_set].
  destruct (decide (k = k')) as [<-|E].
  - rewrite bool_decide_true by done. cbn.
    rewrite bool_decide_true; [done|]. apply elem_of_cons. by left.
  - rewrite (bool_decide_false (k = k')) by done. cbn. rewrite IH.
    destruct (decide (k ∈ d.*1)) as [E2|E2].
    + rewrite !bool_decide_true; [done | | done]. apply elem_of_cons. by right.
    + rewrite !bool_decide_false; [done | | done].
      intros [?|?]%elem_of_cons; done.
Qed.

Lemma dict_set_NoDup k v d : NoDup d.*1 → NoDup (dict_set k v d).*1.
Proof.
  intros H. rewrite dict_set_keys. case_bool_decide as E; [done|].
  apply NoDup_app. split_and!; [done | | apply NoDup_singleton].
  intros x Hx ->%list_elem_of_singleton. done.
Qed.

Lemma dict_set_elem k v d k' v' :
  NoDup d.*1 →
  (k', v') ∈ dict_set k v d ↔ (k' = k ∧ v' = v) ∨ (k' ≠ k ∧ (k', v') ∈ d).
Proof.
  induction d as [|[k0 v0] d IH]; intros Hnd.
  - cbn. rewrite list_elem_of_singleton. split.
    + intros [= -> ->]. by left.
    + intros [[-> ->]|[_ H]]; [done|]. by apply elem_of_nil in H.
  - cbn in Hnd. apply NoDup_cons in Hnd as [Hk0 Hnd]. cbn [dict_set].
    destruct (decide (k = k0)) as [<-|E];
      [rewrite bool_decide_true by done | rewrite bool_decide_false by done].
    + rewrite !elem_of_cons. split.
      * intros [[= -> ->]|H]; [by left|]. right. split; [|by right].
        intros ->. apply Hk0. apply list_elem_of_fmap. by exists (k, v').
      * intros [[-> ->]|[Hne [[= -> ->]|H]]]; [by left | done | by right].
    + rewrite !elem_of_cons, (IH Hnd). split.
      * intros [[= -> ->]|[[-> ->]|[Hne H]]]; [right | by left | right]; split; auto.
      * intros [[-> ->]|[Hne [[= -> ->]|H]]]; [right; by left | by left |].
        right. right. done.
Qed.

Lemma dict_set_length k v d : (length d ≤ length (dict_set k v d))%nat.
Proof.
  induction d as [|[k' v'] d IH]; cbn; [lia|]. case_bool_decide; cbn; lia.
Qed.

(** X17: [request_headers.update(headers)], for dicts (no name twice):
    the result has no name twice; it holds every header of the caller,
    and of the defaults those whose name the caller did not give; and
    the defaults keep their places at the front. So a caller's [Host]
    replaces the default one and is not sent beside it. *)
Theorem request_headers_update d e :
  NoDup d.*1 → NoDup e.*1 →
  let r := dict_update d e in
  NoDup r.*1
  ∧ (∀ k v, (k, v) ∈ r ↔ (k, v) ∈ e ∨ ((k, v) ∈ d ∧ k ∉ e.*1))
  ∧ take (length d) r.*1 = d.*1.
Proof.
  intros Hd He. cbv zeta. unfold dict_update. revert d Hd.
  induction e as [|[k v] e IH]; intros d Hd.
  - cbn. split_and!; [done | | by rewrite <- (length_fmap fst), take_ge].
    intros k v. split; [intros H; right; split; [done|apply not_elem_of_nil] |].
    intros [H|[H _]]; [by apply elem_of_nil in H | done].
  - cbn in He. apply NoDup_cons in He as [Hk He]. cbn [fold_left fst snd].
    destruct (IH He (dict_set k v d) (dict_set_NoDup k v d Hd)) as (H1 & H2 & H3).
    split_and!; [done | |].
    + intros k0 v0. rewrite H2, (dict_set_elem k v d k0 v0 Hd). cbn.
      rewrite !elem_of_cons. split.
      * intros [H|[[[-> ->]|[Hne H]] Hn]]; [left; by right | left; by left |].
        right. split; [done|]. intros [?|?]; done.
      * intros [[[= -> ->]|H]|[H Hn]]; [right | by left | right].
        -- split; [by left | done].
        -- split; [right; split; [|done] | ]; intros ?; apply Hn; auto.
    + assert (take (length d) (dict_set k v d).*1 = d.*1) as Ht.
      { rewrite dict_set_keys. case_bool_decide.
        - by rewrite <- (length_fmap fst), take_ge.
        - rewrite <- (length_fmap fst d). by rewrite take_app_length. }
      etransitivity; [|exact Ht]. rewrite <- H3.
      rewrite take_take. f_equal. pose proof (dict_set_length k v d). lia.
Qed.

Lemma request_headers_update_witness :
  dict_update
    [("Host", "example.com"); ("User-Agent", "TracePulse/1.0"); ("Accept", "*/*")]
    [("Accept", "text/html"); ("Host", "other")]
  = [("Host", "other"); ("User-Agent", "TracePulse/1.0"); ("Accept", "text/html")]
  ∧ NoDup (dict_update
             [("Host", "example.com"); ("User-Agent", "TracePulse/1.0");
              ("Accept", "*/*")]
             [("Accept", "text/html"); ("Host", "other")]).*1.
Proof.
  split; [reflexivity|].
  apply (request_headers_update
           [("Host", "example.com"); ("User-Agent", "TracePulse/1.0"); ("Accept", "*/*")]
           [("Accept", "text/html"); ("Host", "other")]).
  - apply (bool_decide_eq_true_1 (NoDup _)). vm_compute. reflexivity.
  - apply (bool_decide_eq_true_1 (NoDup _)). vm_compute. reflexivity.
Defined.

(** ** Repeated and concurrent traces *)

(** X18: [trace_multiple], for a URL that parses, returns exactly
    [count] records (none for a count of zero or less), each for the
    URL asked for. *)
Theorem trace_multiple_count w start u count m hs body timeout parsed pp :
  urlparse w u = Returns parsed → port parsed = Returns pp →
  ∃ results n,
    trace_multiple w start u count m hs body timeout = (Returns results, n)
    ∧ length results = Z.to_nat count
    ∧ Forall (fun t => url t = u) results.
Proof.
  intros Hu Hp. unfold trace_multiple.
  generalize (Z.to_nat count) as k. intros k. revert start.
  induction k as [|k IH]; intros start; cbn.
  - by eexists _, _.
  - destruct (trace_request_returns w start u m hs body timeout true 10 parsed pp Hu Hp)
      as (t & n & Ht).
    rewrite Ht. destruct (IH n) as (rs & n' & Hr & Hl & Hf). rewrite Hr.
    eexists _, _. split; [done|]. split; [by rewrite <- Hl|].
    constructor; [|done]. by eapply trace_request_url.
Qed.

Lemma trace_multiple_count_witness :
  ∃ results,
    trace_multiple demo_world 0 "http://example.com/" 3 "GET" None None demo_timeout
    = (Returns results, 24%nat)
    ∧ length results = 3%nat.
Proof.
  edestruct (trace_multiple_count demo_world 0 "http://example.com/" 3 "GET" None None
               demo_timeout (parsed "http" (Some "example.com") (Returns None) "/") None)
    as (rs & n & Hr & Hl & _); [reflexivity | reflexivity |].
  exists rs. split; [|exact Hl].
  rewrite Hr. f_equal.
  assert ((trace_multiple demo_world 0 "http://example.com/" 3 "GET" None None
             demo_timeout).2 = 24%nat) as H by (vm_compute; reflexivity).
  rewrite Hr in H. exact H.
Defined.

Lemma collect_returns_lists (pairs : list (string * TimingBreakdown))
    (results : gmap string (list TimingBreakdown)) :
  ∃ results',
    collect (Returns <$> pairs) results = Returns results'
    ∧ dom results' = dom results
    ∧ ∀ u l, results !! u = Some l →
        results' !! u = Some (l ++ (filter (fun p => p.1 = u) pairs).*2).
Proof.
  revert results. induction pairs as [|[u0 r0] pairs IH]; intros results.
  - exists results. split_and!; [done | done |]. intros u l Hl.
    by rewrite filter_nil, app_nil_r.
  - cbn [fmap list_fmap collect].
    destruct (IH (alter (fun l => l ++ [r0]) u0 results)) as (res' & Hc & Hd & Hl).
    exists res'. split_and!; [done | by rewrite Hd, dom_alter_L |].
    intros u l Hu. rewrite filter_cons. cbn [fst].
    destruct (decide (u0 = u)) as [->|Hne].
    + rewrite (Hl u (l ++ [r0])) by (by rewrite lookup_alter_eq, Hu).
      by rewrite <- app_assoc.
    + rewrite (Hl u l) by (by rewrite lookup_alter_ne). done.
Qed.

Lemma count_tasks_occ urls k (u : string) :
  length (filter (fun t : string * nat => t.1 = u) (make_tasks urls k))
  = (length (filter (fun x => x = u) urls) * Z.to_nat k)%nat.
Proof.
  unfold make_tasks. induction urls as [|x urls IH]; [done|].
  rewrite bind_cons, filter_app, length_app, IH, filter_cons.
  destruct (decide (x = u)) as [->|Hne].
  - rewrite filter_tasks_eq, length_fmap, length_seq. cbn. lia.
  - rewrite filter_tasks_ne by done. cbn. lia.
Qed.

Lemma futures_return_urls worlds m hs body timeout (urls : list string)
    (tasks : list (string * nat)) (g : nat → nat) :
  Forall (fun t : string * nat => t.1 ∈ urls) tasks →
  (∀ j u, u ∈ urls →
     ∃ parsed pp, urlparse (worlds j) u = Returns parsed ∧ port parsed = Returns pp) →
  ∃ pairs,
    imap (fun j => submit worlds m hs body timeout (g j)) tasks = Returns <$> pairs
    ∧ pairs.*1 = tasks.*1
    ∧ Forall (fun p : string * TimingBreakdown => url p.2 = p.1) pairs.
Proof.
  intros Hin Hparse. revert g. induction Hin as [|t tasks Ht _ IH]; intros g.
  - by exists [].
  - cbn [imap]. destruct (IH (fun j => g (S j))) as (pairs & Hf & Hp & Hu).
    destruct (Hparse (g 0%nat) t.1 Ht) as (parsed & pp & H1 & H2).
    destruct (trace_request_returns (worlds (g 0%nat)) 0 t.1 m hs body timeout
                true 10 parsed pp H1 H2) as (r & n & Hr).
    exists ((t.1, r) :: pairs). split_and!.
    + cbn [fmap list_fmap]. f_equal; [|exact Hf].
      unfold submit. by rewrite Hr.
    + cbn. by rewrite Hp.
    + constructor; [|done]. cbn. by eapply trace_request_url.
Qed.

(** X19: when the URL of every target parses, whatever the order in
    which the workers finish, [trace_concurrent] returns a mapping whose
    keys are the targets; the list of a target holds only records for
    that target, [count_per_url] of them for each time the target
    occurs in [urls]. *)
Theorem trace_concurrent_complete worlds order urls k m hs body timeout mw :
  0 < mw →
  order ≡ₚ seq 0 (length (make_tasks urls k)) →
  (∀ j u, u ∈ urls →
     ∃ parsed pp, urlparse (worlds j) u = Returns parsed ∧ port parsed = Returns pp) →
  ∃ res,
    trace_concurrent worlds order urls k m hs body timeout mw = Returns res
    ∧ dom res = list_to_set urls
    ∧ ∀ u, u ∈ urls →
        ∃ l, res !! u = Some l
             ∧ length l = (length (filter (fun x => x = u) urls) * Z.to_nat k)%nat
             ∧ Forall (fun t => url t = u) l.
Proof.
  intros Hmw Hperm Hparse. unfold trace_concurrent.
  rewrite (proj2 (Z.leb_gt mw 0)) by lia.
  set (tasks := make_tasks urls k) in *.
  set (futures := imap (submit worlds m hs body timeout) tasks).
  assert (∃ pairs, futures = Returns <$> pairs ∧ pairs.*1 = tasks.*1
                   ∧ Forall (fun p : string * TimingBreakdown => url p.2 = p.1) pairs)
    as (pairs & Hf & Hp & Hurl).
  { apply (futures_return_urls worlds m hs body timeout urls tasks (fun j => j));
      [|done].
    subst tasks. unfold make_tasks. apply Forall_forall. intros [u i] Ht.
    apply list_elem_of_bind in Ht as (u' & Ht & Hu').
    apply list_elem_of_fmap in Ht as (i' & [= -> ->] & _). done. }
  assert (length futures = length tasks) as Hlen
    by (subst futures; apply length_imap).
  assert (as_completed pairs order ≡ₚ pairs) as Hdp.
  { apply as_completed_permutation. rewrite Hperm, <- Hlen, Hf.
    by rewrite length_fmap. }
  rewrite Hf, as_completed_fmap. set (done := as_completed pairs order) in *.
  destruct (collect_returns_lists done (empty_results urls)) as (res & Hc & Hd & Hl).
  destruct (empty_results_fold urls ∅) as (Hed & Hein & _).
  fold (empty_results urls) in Hed, Hein.
  exists res. split_and!; [done | by rewrite Hd, Hed, dom_empty_L, union_empty_r_L |].
  intros u Hu. rewrite (Hl u [] (Hein u Hu)). eexists. split; [done|].
  rewrite app_nil_l. split.
  - rewrite length_fmap, Hdp.
    rewrite (filter_fst_fmap u fst fst pairs tasks Hp).
    apply count_tasks_occ.
  - apply Forall_fmap, Forall_forall. intros [u' r] Hin.
    apply list_elem_of_filter in Hin as [Hu' Hin]. cbn in *. subst u'.
    rewrite Hdp in Hin. rewrite Forall_forall in Hurl. exact (Hurl _ Hin).
Qed.

Lemma trace_concurrent_complete_witness :
  ∃ res l,
    trace_concurrent (fun _ => demo_world) [2%nat; 0%nat; 3%nat; 1%nat]
      ["http://example.com/"; "http://example.com/old"] 2 "GET" None None
      demo_timeout 5 = Returns res
    ∧ res !! "http://example.com/old" = Some l
    ∧ length l = 2%nat.
Proof.
  edestruct (trace_concurrent_complete (fun _ => demo_world)
               [2%nat; 0%nat; 3%nat; 1%nat]
               ["http://example.com/"; "http://example.com/old"] 2 "GET" None None
               demo_timeout 5) as (res & Hr & _ & Hl).
  - lia.
  - apply (Permutation_trans (l' := [0%nat; 2%nat; 3%nat; 1%nat])); [constructor|].
    constructor.
    apply (Permutation_trans (l' := [2%nat; 1%nat; 3%nat])); [repeat constructor|].
    apply (Permutation_trans (l' := [1%nat; 2%nat; 3%nat])); repeat constructor.
  - intros j u Hu.
    apply elem_of_cons in Hu as [->|Hu];
      [|apply elem_of_cons in Hu as [->|Hu]; [|by apply elem_of_nil in Hu]];
      eexists _, _; split; reflexivity.
  - destruct (Hl "http://example.com/old") as (l & Hlu & Hlen & _).
    { apply elem_of_cons. right. apply elem_of_cons. by left. }
    exists res, l. split; [exact Hr|]. split; [exact Hlu | exact Hlen].
Defined.

(** ** Averages of accounted records *)




(** ** The callers: URL normalisation *)

(** X21: the URL that the command line and the dashboard hand to the
    tracer always starts with [http://] or [https://]; a URL that
    already does is left as it is, so normalising twice is normalising
    once. *)
Theorem normalize_url_scheme u :
  (str_startswith "http://" (normalize_url u)
   || str_startswith "https://" (normalize_url u)) = true
  ∧ normalize_url (normalize_url u) = normalize_url u
  ∧ (str_startswith "http://" u || str_startswith "https://" u = true →
     normalize_url u = u).
Proof.
  assert (str_startswith "https://" ("https://" +:+ u) = true) as Hs.
  { unfold str_startswith. rewrite encode_app. apply startswith_app. }
  unfold normalize_url.
  destruct (str_startswith "http://" u) eqn:E1;
    destruct (str_startswith "https://" u) eqn:E2; cbn [negb andb orb];
    rewrite ?E1, ?E2, ?Hs; cbn [negb andb orb]; rewrite ?orb_true_r, ?andb_false_r;
    done.
Qed.

(** ** cURL commands *)

Lemma curl_loop_invariant (I : Curl.params → Prop) (Q : string → Prop) :
  (∀ tok next p, Q tok → I p → I (curl_step tok next p).1) →
  ∀ tokens p, Forall Q tokens → I p → I (curl_loop tokens p).
Proof.
  intros Hstep tokens.
  remember (length tokens) as n eqn:Hn.
  revert tokens Hn. induction (lt_wf n) as [n _ IH]. intros tokens -> p HQ Hp.
  destruct tokens as [|tok rest]; [done|]. cbn [curl_loop].
  apply Forall_cons in HQ as [Htok Hrest].
  specialize (Hstep tok (head rest) p Htok Hp).
  destruct (curl_step tok (head rest) p) as [p' [|]]; cbn in Hstep.
  - destruct rest as [|arg rest']; [done|].
    apply Forall_cons in Hrest as [_ Hrest].
    eapply (IH (length rest')); [cbn; lia | done | done | done].
  - eapply (IH (length rest)); [cbn; lia | done | done | done].
Qed.

Lemma http_not_dash tok :
  str_startswith "http://" tok || str_startswith "https://" tok = true →
  str_startswith "-" tok = false.
Proof.
  unfold str_startswith. destruct (encode tok) as [|b l]; [done|].
  cbn. destruct (decide ("h"%byte = b)) as [<-|Hne].
  - done.
  - by rewrite !bool_decide_false by done.
Qed.

Ltac curl_cases :=
  unfold curl_step;
  repeat match goal with
         | |- context [if ?c then _ else _] =>
             lazymatch type of c with bool => destruct c eqn:? end
         end; cbn.

(** X22: whatever the command and however it is cut into tokens, the
    URL that [parse_curl] returns is not an option: it is empty or does
    not start with a dash. *)
Theorem parse_curl_url_not_flag shlex_split cmd p :
  parse_curl shlex_split cmd = Returns p →
  str_startswith "-" (Curl.url p) = false.
Proof.
  unfold parse_curl. destruct (curl_tokens shlex_split cmd) as [tokens|e]; [|done].
  intros [= <-].
  apply (curl_loop_invariant (fun p => str_startswith "-" (Curl.url p) = false)
           (fun _ => True)); [| by apply Forall_true | done].
  intros tok next q _ Hq. curl_cases; try done.
  - by apply http_not_dash.
  - match goal with H : _ && negb _ = true |- _ =>
      apply andb_prop in H as [_ H]; by apply negb_true_iff in H end.
Qed.

Lemma parse_curl_url_not_flag_witness :
  ∃ p, parse_curl demo_shlex "curl -x -X put example.com" = Returns p
       ∧ Curl.url p = "example.com"
       ∧ str_startswith "-" (Curl.url p) = false.
Proof.
  eexists. split; [vm_compute; reflexivity|]. split; [reflexivity|].
  apply (parse_curl_url_not_flag demo_shlex "curl -x -X put example.com").
  vm_compute; reflexivity.
Defined.

(** X23: the method that [parse_curl] returns is in upper case, whether
    it is the default, the one that a data option implies or the
    argument of [-X]. *)
Theorem parse_curl_method_upper shlex_split cmd p :
  parse_curl shlex_split cmd = Returns p →
  str_upper (Curl.method p) = Curl.method p.
Proof.
  unfold parse_curl. destruct (curl_tokens shlex_split cmd) as [tokens|e]; [|done].
  intros [= <-].
  apply (curl_loop_invariant (fun p => str_upper (Curl.method p) = Curl.method p)
           (fun _ => True)); [| by apply Forall_true | done].
  intros tok next q _ Hq. curl_cases; try done.
  apply str_upper_idemp.
Qed.

Lemma parse_curl_method_upper_witness :
  ∃ p, parse_curl demo_shlex "curl -X put 'http://example.com/" = Returns p
       ∧ Curl.method p = "PUT".
Proof.
  eexists. split; [vm_compute; reflexivity|].
  rewrite <- (parse_curl_method_upper demo_shlex "curl -X put 'http://example.com/");
    [reflexivity | vm_compute; reflexivity].
Defined.

(** X24: in a command without [-X] and [--request], the method follows
    from the data: [POST] when a data option gave a body, [GET]
    otherwise. *)
Theorem parse_curl_data_means_post shlex_split cmd tokens p :
  curl_tokens shlex_split cmd = Returns tokens →
  Forall (fun tok => tok ∉ REQUEST_FLAGS) tokens →
  parse_curl shlex_split cmd = Returns p →
  Curl.method p = match Curl.body p with Some _ => "POST" | None => "GET" end.
Proof.
  unfold parse_curl. intros -> Hall [= <-].
  apply (curl_loop_invariant
           (fun p => Curl.method p
                     = match Curl.body p with Some _ => "POST" | None => "GET" end)
           (fun tok => tok ∉ REQUEST_FLAGS)); [| done | done].
  intros tok next q Htok Hq. unfold curl_step.
  rewrite (bool_decide_false (tok ∈ REQUEST_FLAGS)) by done. cbn [andb].
  repeat match goal with
         | |- context [if ?c then _ else _] =>
             lazymatch type of c with bool => destruct c eqn:? end
         end; cbn; try done.
  match goal with H : bool_decide (_ = "GET") = false |- _ =>
    apply bool_decide_eq_false in H; cbn in H end.
  destruct (Curl.body q); congruence.
Qed.

Lemma parse_curl_data_means_post_witness :
  ∃ p, parse_curl demo_shlex "curl -d 'a=1' http://example.com/" = Returns p
       ∧ Curl.body p = Some "a=1" ∧ Curl.method p = "POST".
Proof.
  eexists. split; [vm_compute; reflexivity|]. split; [reflexivity|].
  apply (parse_curl_data_means_post demo_shlex "curl -d 'a=1' http://example.com/"
           ["-d"; "a=1"; "http://example.com/"]);
    [vm_compute; reflexivity | | vm_compute; reflexivity].
  repeat constructor; vm_compute; intros H; inversion H; subst;
    repeat match goal with H : _ ∈ _ |- _ => inversion H; clear H; subst end.
Defined.

(** ** The callers: the bar of a phase *)

Lemma py_int_bounds (x : Qc) (w : Z) :
  (0 ≤ x)%Qc → (x ≤ Q2Qc (inject_Z w))%Qc → 0 ≤ py_int x ≤ w.
Proof.
  destruct x as [[n d] Hc]. unfold py_int, Qcle. cbn [this Qnum Qden].
  intros H0 Hw. cbn [Q2Qc this] in Hw. rewrite Qred_correct in Hw.
  assert (0 ≤ n) as Hn.
  { unfold Qle in H0. simpl in H0. lia. }
  rewrite Z.quot_div_nonneg by lia. split.
  - apply Z.div_pos; lia.
  - unfold Qle in Hw. simpl in Hw. apply Z.div_le_upper_bound; lia.
Qed.

(** X25: the bar that the command line draws for a phase: for a
    duration that is not negative, a positive total and a width that
    is not negative, the bar is a run of full cells followed by a run of
    light cells, exactly [width] cells in all. *)
Theorem phase_bar_width value total width :
  (0 ≤ value)%Qc → (0 < total)%Qc → 0 ≤ width →
  ∃ filled : nat,
    (filled ≤ Z.to_nat width)%nat
    ∧ _phase_bar value total width
      = replicate filled Full ++ replicate (Z.to_nat width - filled) Light
    ∧ length (_phase_bar value total width) = Z.to_nat width.
Proof.
  intros Hv Ht Hw. unfold _phase_bar.
  rewrite bool_decide_false by (intros E; apply Qclt_not_eq in Ht; congruence).
  set (ratio := py_min _ _).
  assert (0 ≤ ratio ∧ ratio ≤ Q2Qc (inject_Z 1))%Qc as [Hr0 Hr1].
  { subst ratio. unfold py_min. destruct (Qclt_le_dec _ _) as [Hlt|Hle].
    - split; [done | apply Qcle_refl].
    - split; [|done]. unfold Qcdiv. apply Qcmult_nonneg_nonneg; [done|].
      apply Qclt_le_weak. by apply Qcinv_pos. }
  assert (0 ≤ Q2Qc (inject_Z width))%Qc as Hwq.
  { unfold Qcle. cbn [Q2Qc this]. rewrite !Qred_correct. unfold Qle. simpl. lia. }
  destruct (py_int_bounds (ratio * Q2Qc (inject_Z width)) width) as [Hf0 Hf1].
  - by apply Qcmult_nonneg_nonneg.
  - rewrite <- (Qcmult_1_l (Q2Qc (inject_Z width))) at 2.
    apply Qcmult_le_compat_r; [exact Hr1 | exact Hwq].
  - set (filled := py_int _) in *. exists (Z.to_nat filled). split_and!.
    + lia.
    + do 2 f_equal. lia.
    + rewrite length_app, !length_replicate. lia.
Qed.

Lemma phase_bar_width_witness :
  length (_phase_bar (Q2Qc (inject_Z 1)) (Q2Qc (inject_Z 4)) 30) = 30%nat
  ∧ _phase_bar (Q2Qc (inject_Z 1)) (Q2Qc (inject_Z 4)) 30
    = replicate 7 Full ++ replicate 23 Light.
Proof.
  destruct (phase_bar_width (Q2Qc (inject_Z 1)) (Q2Qc (inject_Z 4)) 30)
    as (filled & Hle & Heq & Hlen); [done | done | lia |].
  split; [exact Hlen | vm_compute; reflexivity].
Defined.
